(** * The FPS room connection manager and its WebSocket endpoint

    A shallow embedding of
    [nova-webgames-be/app/api/v1/games/fps/websocket.py]:
    the class [FPSConnectionManager] (connection registry, player records,
    room membership, room broadcast) and the message loop of
    [fps_websocket_endpoint].

    Python dictionaries are finite maps ([gmap]), Python sets are finite
    sets ([gset]).  Code that may raise, that mutates the manager and that
    writes to a transport runs in the monad [M] below: it threads the
    manager, returns a value or a raised exception, and records the frames
    the transports accepted. *)

From Stdlib Require Import ZArith String List.
From stdpp Require Import base option list gmap strings fin_maps fin_sets.

Local Open Scope string_scope.
Local Open Scope list_scope.

(** ** Values decoded from JSON

    [json.loads] yields [None], booleans, integers, strings, lists and
    dictionaries.  A dictionary is kept as its list of items; [json.loads]
    never yields two items with one key.  Floating point numbers are left
    out of the model. *)

#[warnings="-register-all"]
Inductive JSON : Type :=
  | JNull
  | JBool (b : bool)
  | JInt (z : Z)
  | JStr (s : string)
  | JArr (items : list JSON)
  | JObj (fields : list (string * JSON)).

(** Python truthiness, as tested by [if room_id and player_id:]. *)
Definition truthy (v : JSON) : bool :=
  match v with
  | JNull => false
  | JBool b => b
  | JInt z => negb (Z.eqb z 0)
  | JStr s => negb (String.eqb s EmptyString)
  | JArr items => match items with [] => false | _ => true end
  | JObj fields => match fields with [] => false | _ => true end
  end.

(** [type(v).__name__], as it appears in Python's error messages. *)
Definition type_name (v : JSON) : string :=
  match v with
  | JNull => "NoneType"
  | JBool _ => "bool"
  | JInt _ => "int"
  | JStr _ => "str"
  | JArr _ => "list"
  | JObj _ => "dict"
  end.

Fixpoint assoc_get (fields : list (string * JSON)) (key : string) : JSON :=
  match fields with
  | [] => JNull
  | (k, v) :: rest => if String.eqb k key then v else assoc_get rest key
  end.

(** [v == "literal"] for a decoded value [v]. *)
Definition eq_str (v : JSON) (lit : string) : bool :=
  match v with
  | JStr s => String.eqb s lit
  | _ => false
  end.

(** ** Dictionary keys

    The keys of [rooms] are whatever hashable value the client put in
    ["roomId"].  Python identifies [True] with [1] and [False] with [0] as
    keys; lists and dictionaries are unhashable. *)

Inductive Key : Type :=
  | KNone
  | KInt (z : Z)
  | KStr (s : string).

#[global] Instance Key_eq_dec : EqDecision Key.
Proof. solve_decision. Defined.

Definition Key_encode (k : Key) : unit + (Z + string) :=
  match k with
  | KNone => inl tt
  | KInt z => inr (inl z)
  | KStr s => inr (inr s)
  end.

Definition Key_decode (x : unit + (Z + string)) : Key :=
  match x with
  | inl _ => KNone
  | inr (inl z) => KInt z
  | inr (inr s) => KStr s
  end.

#[global] Instance Key_countable : Countable Key.
Proof.
  apply (inj_countable' Key_encode Key_decode).
  intros []; reflexivity.
Defined.

Definition hash_key (v : JSON) : option Key :=
  match v with
  | JNull => Some KNone
  | JBool b => Some (KInt (if b then 1 else 0))
  | JInt z => Some (KInt z)
  | JStr s => Some (KStr s)
  | JArr _ => None
  | JObj _ => None
  end.

Definition key_truthy (k : Key) : bool :=
  match k with
  | KNone => false
  | KInt z => negb (Z.eqb z 0)
  | KStr s => negb (String.eqb s EmptyString)
  end.

(** ** The manager *)

(** A transport handle; the model only needs its identity. *)
Record WebSocket : Type := Socket { socket_id : nat }.

Record FPSConnectionManager : Type := Manager {
  (* Map of connection_id -> websocket *)
  active_connections : gmap string WebSocket;
  (* Map of connection_id -> player_id *)
  connection_players : gmap string JSON;
  (* Map of room_id -> set of connection_ids *)
  rooms : gmap Key (gset string)
}.

(** [FPSConnectionManager.__init__] *)
Definition init : FPSConnectionManager :=
  {| active_connections := ∅; connection_players := ∅; rooms := ∅ |}.

(** [FPSConnectionManager.connect], after the handshake was accepted. *)
Definition connect (websocket : WebSocket) (connection_id : string)
    (self : FPSConnectionManager) : FPSConnectionManager :=
  {| active_connections := <[connection_id := websocket]> (active_connections self);
     connection_players := connection_players self;
     rooms := rooms self |}.

(** [FPSConnectionManager.disconnect].  The loop over the rooms sits inside
    the test on [connection_players]. *)
Definition disconnect (connection_id : string)
    (self : FPSConnectionManager) : FPSConnectionManager :=
  let active :=
    match active_connections self !! connection_id with
    | Some _ => delete connection_id (active_connections self)
    | None => active_connections self
    end in
  match connection_players self !! connection_id with
  | Some player_id =>
      {| active_connections := active;
         connection_players := delete connection_id (connection_players self);
         rooms := (λ connections : gset string, connections ∖ {[connection_id]})
                    <$> rooms self |}
  | None =>
      {| active_connections := active;
         connection_players := connection_players self;
         rooms := rooms self |}
  end.

(** [FPSConnectionManager.join_room] *)
Definition join_room (connection_id : string) (room_id : Key)
    (self : FPSConnectionManager) : FPSConnectionManager :=
  let rooms1 :=
    match rooms self !! room_id with
    | None => <[room_id := ∅]> (rooms self)
    | Some _ => rooms self
    end in
  {| active_connections := active_connections self;
     connection_players := connection_players self;
     rooms := alter (λ members : gset string, members ∪ {[connection_id]})
                room_id rooms1 |}.

(** [FPSConnectionManager.leave_room] *)
Definition leave_room (connection_id : string) (room_id : Key)
    (self : FPSConnectionManager) : FPSConnectionManager :=
  match rooms self !! room_id with
  | Some _ =>
      {| active_connections := active_connections self;
         connection_players := connection_players self;
         rooms := alter (λ members : gset string, members ∖ {[connection_id]})
                    room_id (rooms self) |}
  | None => self
  end.

(** [fps_manager.connection_players[connection_id] = player_id], the
    assignment the endpoint makes after [join_room]. *)
Definition set_player (connection_id : string) (player_id : JSON)
    (self : FPSConnectionManager) : FPSConnectionManager :=
  {| active_connections := active_connections self;
     connection_players := <[connection_id := player_id]> (connection_players self);
     rooms := rooms self |}.

(** The member set of a room; empty for a room id never seen. *)
Definition room_members (self : FPSConnectionManager) (room_id : Key) : gset string :=
  default ∅ (rooms self !! room_id).

(** ** Exceptions, deliveries and the monad of effects *)

Inductive Exc : Type :=
  | JSONDecodeError
  | AttributeError (msg : string)
  | TypeError (msg : string)
  | TransportError (msg : string)   (* any exception out of [send_json] *)
  | WebSocketDisconnect.            (* raised by [receive_text] *)

(** [str(e)] *)
Definition str_exc (e : Exc) : string :=
  match e with
  | JSONDecodeError => "Expecting value"
  | AttributeError msg => msg
  | TypeError msg => msg
  | TransportError msg => msg
  | WebSocketDisconnect => EmptyString
  end.

Inductive Outcome (A : Type) : Type :=
  | Returned (a : A)
  | Raised (e : Exc).
Arguments Returned {A} a.
Arguments Raised {A} e.

(** A frame accepted by the transport of a connection. *)
Definition Delivery : Type := string * JSON.

Definition M (A : Type) : Type :=
  FPSConnectionManager → Outcome A * FPSConnectionManager * list Delivery.

Definition ret {A : Type} (a : A) : M A := λ self, (Returned a, self, []).

Definition raise {A : Type} (e : Exc) : M A := λ self, (Raised e, self, []).

Definition bind {A B : Type} (m : M A) (k : A → M B) : M B := λ self,
  match m self with
  | (Returned a, self1, out1) =>
      let '(r, self2, out2) := k a self1 in (r, self2, out1 ++ out2)
  | (Raised e, self1, out1) => (Raised e, self1, out1)
  end.

(** [try: body / except Exception as e: handler e]; what [body] did to the
    manager and to the transports before it raised stays done. *)
Definition try_except {A : Type} (body : M A) (handler : Exc → M A) : M A := λ self,
  match body self with
  | (Returned a, self1, out1) => (Returned a, self1, out1)
  | (Raised e, self1, out1) =>
      let '(r, self2, out2) := handler e self1 in (r, self2, out1 ++ out2)
  end.

Definition get_manager : M FPSConnectionManager := λ self, (Returned self, self, []).

Definition update (f : FPSConnectionManager → FPSConnectionManager) : M unit :=
  λ self, (Returned tt, f self, []).

Declare Scope fps_scope.
Delimit Scope fps_scope with fps.
Notation "x <- m ;; k" := (bind m (λ x, k))
  (at level 100, m at next level, right associativity) : fps_scope.
Notation "m ;; k" := (bind m (λ _, k))
  (at level 100, right associativity) : fps_scope.
Local Open Scope fps_scope.

Definition outcome {A : Type} (x : Outcome A * FPSConnectionManager * list Delivery)
  : Outcome A := x.1.1.
Definition manager_after {A : Type} (x : Outcome A * FPSConnectionManager * list Delivery)
  : FPSConnectionManager := x.1.2.
Definition delivered {A : Type} (x : Outcome A * FPSConnectionManager * list Delivery)
  : list Delivery := x.2.

(** ** Outbound frames *)

Definition connected_msg (connection_id : string) : JSON :=
  JObj [("type", JStr "connected"); ("connectionId", JStr connection_id);
        ("game", JStr "fps"); ("message", JStr "Connected to FPS Game WebSocket")].
Definition room_joined_msg (room_id : JSON) : JSON :=
  JObj [("type", JStr "room_joined"); ("roomId", room_id)].
Definition player_joined_msg (player_id room_id : JSON) : JSON :=
  JObj [("type", JStr "player_joined"); ("playerId", player_id); ("roomId", room_id)].
Definition room_left_msg (room_id : JSON) : JSON :=
  JObj [("type", JStr "room_left"); ("roomId", room_id)].
Definition player_left_msg (player_id room_id : JSON) : JSON :=
  JObj [("type", JStr "player_left"); ("playerId", player_id); ("roomId", room_id)].
Definition pong_msg : JSON := JObj [("type", JStr "pong")].
Definition error_msg (text : string) : JSON :=
  JObj [("type", JStr "error"); ("message", JStr text)].

(** [message.get(key)]; only a dictionary has [get]. *)
Definition py_get (message : JSON) (key : string) : M JSON :=
  match message with
  | JObj fields => ret (assoc_get fields key)
  | _ => raise (AttributeError
                  ("'" +:+ type_name message +:+ "' object has no attribute 'get'"))
  end.

(** The lookup [room_id in self.rooms] hashes [room_id] first. *)
Definition as_key (room_id : JSON) : M Key :=
  match hash_key room_id with
  | Some k => ret k
  | None => raise (TypeError ("unhashable type: '" +:+ type_name room_id +:+ "'"))
  end.

(** The [type] tag of a frame, for statements about frames. *)
Definition tag (message : JSON) : JSON :=
  match message with
  | JObj fields => assoc_get fields "type"
  | _ => JNull
  end.

(** ** Code that talks to the transports

    [send_json websocket message] is the transport: [None] when it accepts
    the frame, [Some text] when it raises an exception whose [str] is
    [text].  [json_loads] is [json.loads]: [None] stands for
    [JSONDecodeError]. *)

(** What [receive_text] hands to the loop: a text frame, or the exception
    [WebSocketDisconnect]. *)
Inductive Recv : Type :=
  | Text (data : string)
  | Disconnect.

(** Whether the endpoint is still in its loop or has left it. *)
Inductive Status : Type := Open | Closed.

Section Endpoint.

Variable json_loads : string → option JSON.
Variable send_json : WebSocket → JSON → option string.

(** [await websocket.send_json(message)] on the transport of
    [recipient]. *)
Definition ws_send (websocket : WebSocket) (recipient : string)
    (message : JSON) : M unit := λ self,
  match send_json websocket message with
  | None => (Returned tt, self, [(recipient, message)])
  | Some text => (Raised (TransportError text), self, [])
  end.

(** [FPSConnectionManager.send_personal_message] *)
Definition send_personal_message (message : JSON) (connection_id : string)
    : M unit :=
  self <- get_manager;;
  match active_connections self !! connection_id with
  | Some websocket =>
      try_except (ws_send websocket connection_id message)
                 (λ e, update (disconnect connection_id))
  | None => ret tt
  end.

(** The first loop of [broadcast_to_room], over the members of the room;
    it returns the list [disconnected]. *)
Fixpoint broadcast_loop (message : JSON) (exclude : option string)
    (members : list string) (disconnected : list string)
    : M (list string) :=
  match members with
  | [] => ret disconnected
  | connection_id :: rest =>
      if decide (Some connection_id = exclude) then
        broadcast_loop message exclude rest disconnected
      else
        self <- get_manager;;
        match active_connections self !! connection_id with
        | Some websocket =>
            disconnected1 <-
              try_except
                (ws_send websocket connection_id message;; ret disconnected)
                (λ e, ret (disconnected ++ [connection_id]));;
            broadcast_loop message exclude rest disconnected1
        | None => broadcast_loop message exclude rest disconnected
        end
  end.

(** [FPSConnectionManager.broadcast_to_room] *)
Definition broadcast_to_room (message : JSON) (room_id : Key)
    (exclude : option string) : M unit :=
  self <- get_manager;;
  match rooms self !! room_id with
  | None => ret tt
  | Some members =>
      disconnected <- broadcast_loop message exclude (elements members) [];;
      (* Clean up disconnected connections *)
      update (λ self1, foldl (λ acc connection_id, disconnect connection_id acc)
                             self1 disconnected)
  end.

(** The body of the inner [try] of [fps_websocket_endpoint], from
    [message.get("type")] on. *)
Definition handle_message (websocket : WebSocket) (connection_id : string)
    (message : JSON) : M unit :=
  message_type <- py_get message "type";;
  if eq_str message_type "join_room" then
    room_id <- py_get message "roomId";;
    player_id <- py_get message "playerId";;
    if truthy room_id && truthy player_id then
      room_key <- as_key room_id;;
      update (join_room connection_id room_key);;
      update (set_player connection_id player_id);;
      ws_send websocket connection_id (room_joined_msg room_id);;
      (* Notify others in room *)
      broadcast_to_room (player_joined_msg player_id room_id) room_key
                        (Some connection_id)
    else ret tt
  else if eq_str message_type "leave_room" then
    room_id <- py_get message "roomId";;
    self <- get_manager;;
    let player_id := default JNull (connection_players self !! connection_id) in
    if truthy room_id then
      room_key <- as_key room_id;;
      update (leave_room connection_id room_key);;
      ws_send websocket connection_id (room_left_msg room_id);;
      (* Notify others in room *)
      if truthy player_id then
        broadcast_to_room (player_left_msg player_id room_id) room_key
                          (Some connection_id)
      else ret tt
    else ret tt
  else if eq_str message_type "game_state" then
    (* Forward game state to other players in room *)
    room_id <- py_get message "roomId";;
    if truthy room_id then
      room_key <- as_key room_id;;
      broadcast_to_room message room_key (Some connection_id)
    else ret tt
  else if eq_str message_type "ping" then
    ws_send websocket connection_id pong_msg
  else ret tt.

(** One turn of the [while True] loop on the received text [data]: the
    inner [try] with its two [except] clauses. *)
Definition receive_iteration (websocket : WebSocket) (connection_id : string)
    (data : string) : M unit :=
  try_except
    (match json_loads data with
     | None => raise JSONDecodeError
     | Some message => handle_message websocket connection_id message
     end)
    (λ e,
       match e with
       | JSONDecodeError =>
           ws_send websocket connection_id (error_msg "Invalid JSON format")
       | _ => ws_send websocket connection_id (error_msg (str_exc e))
       end).

(** The [while True] loop over a finite run of receptions; at the end of
    the run the loop is waiting in [receive_text]. *)
Fixpoint receive_loop (websocket : WebSocket) (connection_id : string)
    (inbound : list Recv) : M unit :=
  match inbound with
  | [] => ret tt
  | Text data :: rest =>
      receive_iteration websocket connection_id data;;
      receive_loop websocket connection_id rest
  | Disconnect :: _ => raise WebSocketDisconnect
  end.

(** The outer [try] of the endpoint around [body]: both [except] clauses
    call [fps_manager.disconnect]. *)
Definition guarded (connection_id : string) (body : M unit) : M Status :=
  try_except (body;; ret Open)
             (λ e, update (disconnect connection_id);; ret Closed).

(** The endpoint from its message loop on, for a connection that is
    already registered. *)
Definition serve (websocket : WebSocket) (connection_id : string)
    (inbound : list Recv) : M Status :=
  guarded connection_id (receive_loop websocket connection_id inbound).

(** [fps_websocket_endpoint]; [connection_id] is the fresh
    [str(uuid.uuid4())]. *)
Definition fps_websocket_endpoint (websocket : WebSocket)
    (connection_id : string) (inbound : list Recv) : M Status :=
  update (connect websocket connection_id);;
  guarded connection_id
    (ws_send websocket connection_id (connected_msg connection_id);;
     receive_loop websocket connection_id inbound).

End Endpoint.

(** ** Who a broadcast reaches

    The members of a room that one pass of the loop of [broadcast_to_room]
    writes to: not excluded, registered in [active_connections], and either
    accepting the frame or raising on it. *)

Section Recipients.

Variable send_json : WebSocket → JSON → option string.

Definition accepts (self : FPSConnectionManager) (message : JSON)
    (connection_id : string) : bool :=
  match active_connections self !! connection_id with
  | Some websocket =>
      match send_json websocket message with None => true | Some _ => false end
  | None => false
  end.

Definition refuses (self : FPSConnectionManager) (message : JSON)
    (connection_id : string) : bool :=
  match active_connections self !! connection_id with
  | Some websocket =>
      match send_json websocket message with None => false | Some _ => true end
  | None => false
  end.

Definition reached (self : FPSConnectionManager) (message : JSON)
    (exclude : option string) (members : list string) : list string :=
  List.filter (λ c, bool_decide (Some c ≠ exclude) && accepts self message c)
              members.

Definition failing (self : FPSConnectionManager) (message : JSON)
    (exclude : option string) (members : list string) : list string :=
  List.filter (λ c, bool_decide (Some c ≠ exclude) && refuses self message c)
              members.

End Recipients.

(** ** Histories

    Whatever happens to the manager is a call of one of its methods, the
    assignment to [connection_players] of the endpoint, or a run of the
    endpoint for some connection. *)

Inductive Action : Type :=
  | CallConnect (websocket : WebSocket) (connection_id : string)
  | CallDisconnect (connection_id : string)
  | CallSendPersonalMessage (message : JSON) (connection_id : string)
  | CallBroadcastToRoom (message : JSON) (room_id : Key) (exclude : option string)
  | CallJoinRoom (connection_id : string) (room_id : Key)
  | CallLeaveRoom (connection_id : string) (room_id : Key)
  | RunServe (websocket : WebSocket) (connection_id : string) (inbound : list Recv)
  | RunEndpoint (websocket : WebSocket) (connection_id : string) (inbound : list Recv).

Section Histories.

Variable json_loads : string → option JSON.
Variable send_json : WebSocket → JSON → option string.

Definition run_action (action : Action) : M unit :=
  match action with
  | CallConnect websocket connection_id => update (connect websocket connection_id)
  | CallDisconnect connection_id => update (disconnect connection_id)
  | CallSendPersonalMessage message connection_id =>
      send_personal_message send_json message connection_id
  | CallBroadcastToRoom message room_id exclude =>
      broadcast_to_room send_json message room_id exclude
  | CallJoinRoom connection_id room_id => update (join_room connection_id room_id)
  | CallLeaveRoom connection_id room_id => update (leave_room connection_id room_id)
  | RunServe websocket connection_id inbound =>
      serve json_loads send_json websocket connection_id inbound;; ret tt
  | RunEndpoint websocket connection_id inbound =>
      fps_websocket_endpoint json_loads send_json websocket connection_id inbound;;
      ret tt
  end.

Definition step (self : FPSConnectionManager) (action : Action)
    : FPSConnectionManager :=
  manager_after (run_action action self).

Definition run_actions (actions : list Action) (self : FPSConnectionManager)
    : FPSConnectionManager :=
  foldl step self actions.

End Histories.

(** The action puts [connection_id] into [active_connections]. *)
Definition registers (connection_id : string) (action : Action) : bool :=
  match action with
  | CallConnect _ c => bool_decide (c = connection_id)
  | RunEndpoint _ c _ => bool_decide (c = connection_id)
  | _ => false
  end.

(** The connections an action registers satisfy [Q], and the action is a bare
    [join_room] call only if [J] holds. *)
Definition action_within (Q : string → Prop) (J : Prop) (action : Action) : Prop :=
  match action with
  | CallConnect _ c => Q c
  | RunEndpoint _ c _ => Q c
  | CallJoinRoom _ _ => J
  | _ => True
  end.

(** A computation keeps a property of the manager. *)
Definition preserves (P : FPSConnectionManager → Prop) {A : Type} (m : M A) : Prop :=
  ∀ self, P self → P (manager_after (m self)).

(** ** Vocabulary for the statements about the endpoint *)

(** The message types the endpoint has a branch for. *)
Definition recognized (message_type : JSON) : bool :=
  eq_str message_type "join_room" || eq_str message_type "leave_room"
  || eq_str message_type "game_state" || eq_str message_type "ping".

(** Frames that are relayed to the other members of a room. *)
Definition is_relay (message : JSON) : bool :=
  eq_str (tag message) "game_state" || eq_str (tag message) "player_joined"
  || eq_str (tag message) "player_left".

(** Every frame a computation gets accepted satisfies [R]. *)
Definition emits (R : Delivery → Prop) {A : Type} (m : M A) : Prop :=
  ∀ self d, d ∈ delivered (m self) → R d.

(** One received text is passed over in silence: the turn of the loop
    returns, the manager is as before and nothing was written. *)
Definition silently_ignored (json_loads : string → option JSON)
    (send_json : WebSocket → JSON → option string) (websocket : WebSocket)
    (connection_id : string) (data : string) (self : FPSConnectionManager) : Prop :=
  receive_iteration json_loads send_json websocket connection_id data self
  = (Returned tt, self, []).

(** Two properties of the manager that the endpoint maintains: every member
    of a room has a player id on record, and no room has a falsy id. *)
Definition members_recorded (self : FPSConnectionManager) : Prop :=
  ∀ room_id c, c ∈ room_members self room_id →
               is_Some (connection_players self !! c).

Definition rooms_truthy (self : FPSConnectionManager) : Prop :=
  ∀ room_id, key_truthy room_id = false → rooms self !! room_id = None.

(** Everything but a [join_room] call made behind the endpoint's back. *)
Definition through_endpoint (action : Action) : Prop :=
  action_within (λ _, True) False action.

(** A sequence of [join_room] and [leave_room] calls of one connection on
    one room. *)
Inductive RoomCall : Type := Join | Leave.

Definition apply_call (connection_id : string) (room_id : Key)
    (call : RoomCall) (self : FPSConnectionManager) : FPSConnectionManager :=
  match call with
  | Join => join_room connection_id room_id self
  | Leave => leave_room connection_id room_id self
  end.

Definition apply_calls (connection_id : string) (room_id : Key)
    (calls : list RoomCall) (self : FPSConnectionManager) : FPSConnectionManager :=
  foldl (λ acc call, apply_call connection_id room_id call acc) self calls.

(** No room lists the connection as a member. *)
Definition purged (connection_id : string) (self : FPSConnectionManager) : Prop :=
  ∀ room_id members,
    rooms self !! room_id = Some members → connection_id ∉ members.

(** ** Concrete managers and transports, for the examples *)

(** The manager after [connect] and [join_room] were called for "c1", with
    no player id recorded for it. *)
Definition joined_without_player : FPSConnectionManager :=
  join_room "c1" (KStr "r1") (connect (Socket 1) "c1" init).

(** The manager after the endpoint handled a [join_room] of "c1". *)
Definition joined_with_player : FPSConnectionManager :=
  set_player "c1" (JStr "pa")
    (join_room "c1" (KStr "r1") (connect (Socket 1) "c1" init)).


(** A transport on which the socket of "c2" raises and every other socket
    accepts. *)
Definition c2_down (websocket : WebSocket) (message : JSON) : option string :=
  if Nat.eqb (socket_id websocket) 2 then Some "connection closed" else None.

(** A transport that accepts every frame. *)
Definition all_up (websocket : WebSocket) (message : JSON) : option string := None.

(** Three connections with players "pa", "pb", "pc", all in room "r1". *)
Definition three_in_room : FPSConnectionManager :=
  set_player "c3" (JStr "pc") (join_room "c3" (KStr "r1") (connect (Socket 3) "c3"
  (set_player "c2" (JStr "pb") (join_room "c2" (KStr "r1") (connect (Socket 2) "c2"
  (set_player "c1" (JStr "pa") (join_room "c1" (KStr "r1") (connect (Socket 1) "c1"
   init)))))))).

(** A room that every member has left. *)
Definition room_emptied : FPSConnectionManager :=
  leave_room "c1" (KStr "r1") joined_with_player.

(** The double quote character, and a quoted word of a JSON text. *)
Definition dquote : string := String (Ascii.ascii_of_nat 34) EmptyString.
Definition quoted (word : string) : string := dquote +:+ word +:+ dquote.

(** The text [{"type":"<tag>"}]. *)
Definition tagged_text (tag_name : string) : string :=
  "{" +:+ quoted "type" +:+ ":" +:+ quoted tag_name +:+ "}".

(** The text [{"type":"<tag>","roomId":"<room>"}]. *)
Definition room_text (tag_name room : string) : string :=
  "{" +:+ quoted "type" +:+ ":" +:+ quoted tag_name +:+ ","
      +:+ quoted "roomId" +:+ ":" +:+ quoted room +:+ "}".

(** [json.loads] on the handful of texts the examples send.  Any other text
    is taken as undecodable; the examples use it only on ["{not json"], which
    is not JSON. *)
Definition json_loads_sample (data : string) : option JSON :=
  if String.eqb data (tagged_text "ping") then
    Some (JObj [("type", JStr "ping")])
  else if String.eqb data (tagged_text "frobnicate") then
    Some (JObj [("type", JStr "frobnicate")])
  else if String.eqb data (room_text "game_state" "r1") then
    Some (JObj [("type", JStr "game_state"); ("roomId", JStr "r1")])
  else if String.eqb data (room_text "leave_room" "r1") then
    Some (JObj [("type", JStr "leave_room"); ("roomId", JStr "r1")])
  else if String.eqb data "{}" then Some (JObj [])
  else if String.eqb data "[]" then Some (JArr [])
  else if String.eqb data "42" then Some (JInt 42)
  else if String.eqb data "null" then Some JNull
  else None.


(** ** What a relay to a whole room would be, and states to try it on *)

(** Every member of the room but the sender got [message] in [run]. *)
Definition relayed_to_every_member {A : Type}
    (run : Outcome A * FPSConnectionManager * list Delivery) (message : JSON)
    (sender : string) (self : FPSConnectionManager) (room_key : Key) : Prop :=
  ∀ member, member ∈ room_members self room_key → member ≠ sender →
            (member, message) ∈ delivered run.

(** The text [{"type":"join_room","roomId":"<room>","playerId":"<player>"}]. *)
Definition join_room_text (room player : string) : string :=
  "{" +:+ quoted "type" +:+ ":" +:+ quoted "join_room" +:+ ","
      +:+ quoted "roomId" +:+ ":" +:+ quoted room +:+ ","
      +:+ quoted "playerId" +:+ ":" +:+ quoted player +:+ "}".

(** [json.loads] on the texts of the examples below, and on those of
    [json_loads_sample]. *)
Definition json_loads_relay (data : string) : option JSON :=
  if String.eqb data (join_room_text "r1" "pa") then
    Some (JObj [("type", JStr "join_room"); ("roomId", JStr "r1");
                ("playerId", JStr "pa")])
  else if String.eqb data (join_room_text "r1" "pb") then
    Some (JObj [("type", JStr "join_room"); ("roomId", JStr "r1");
                ("playerId", JStr "pb")])
  else if String.eqb data (room_text "game_state" EmptyString) then
    Some (JObj [("type", JStr "game_state"); ("roomId", JStr EmptyString)])
  else if String.eqb data (room_text "leave_room" EmptyString) then
    Some (JObj [("type", JStr "leave_room"); ("roomId", JStr EmptyString)])
  else json_loads_sample data.

(** Two connections served by the endpoint, both joined to room "r1". *)
Definition two_joined : FPSConnectionManager :=
  run_actions json_loads_relay all_up
    [RunEndpoint (Socket 1) "c1" [Text (join_room_text "r1" "pa")];
     RunEndpoint (Socket 2) "c2" [Text (join_room_text "r1" "pb")]] init.

(** Then the transport of "c2" raises during a broadcast from "c1", which
    disconnects "c2" ... *)
Definition c2_dropped : FPSConnectionManager :=
  run_actions json_loads_relay c2_down
    [RunServe (Socket 1) "c1" [Text (room_text "game_state" "r1")]] two_joined.

(** ... and the loop of "c2", still reading, receives another [join_room]:
    "c2" is a member of "r1" with a player id on record, and is not in
    [active_connections]. *)
Definition c2_rejoined : FPSConnectionManager :=
  run_actions json_loads_relay all_up
    [RunServe (Socket 2) "c2" [Text (join_room_text "r1" "pb")]] c2_dropped.

(** A room whose id is the empty string, made by calling [join_room] on the
    manager; "c1" and "c2" are registered and "c2" is its member. *)
Definition empty_named_room : FPSConnectionManager :=
  set_player "c2" (JStr "pb")
    (join_room "c2" (KStr EmptyString)
       (connect (Socket 2) "c2" (connect (Socket 1) "c1" init))).

From Stdlib Require Import Sorted.
From stdpp Require sorting.

(** ** Vocabulary for the further properties *)

(** Every player id on record is truthy. *)
Definition players_truthy (self : FPSConnectionManager) : Prop :=
  ∀ c player_id, connection_players self !! c = Some player_id →
                 truthy player_id = true.

(** A message of one of the three room types that lacks, or carries a falsy
    value for, a field its branch tests. *)
Definition lacks_field (fields : list (string * JSON)) : bool :=
  (eq_str (assoc_get fields "type") "join_room"
   && negb (truthy (assoc_get fields "roomId")
            && truthy (assoc_get fields "playerId")))
  || (eq_str (assoc_get fields "type") "leave_room"
      && negb (truthy (assoc_get fields "roomId")))
  || (eq_str (assoc_get fields "type") "game_state"
      && negb (truthy (assoc_get fields "roomId"))).


(** A transport that raises on every frame. *)
Definition all_down (websocket : WebSocket) (message : JSON) : option string :=
  Some "connection closed".

(** A transport that raises on [pong] frames only. *)
Definition pong_down (websocket : WebSocket) (message : JSON) : option string :=
  if eq_str (tag message) "pong" then Some "broken pipe" else None.

(** The text [{"type":"join_room","roomId":<room>,"playerId":"<player>"}],
    with the room given as JSON text. *)
Definition join_text (room_json player : string) : string :=
  "{" +:+ quoted "type" +:+ ":" +:+ quoted "join_room" +:+ ","
      +:+ quoted "roomId" +:+ ":" +:+ room_json +:+ ","
      +:+ quoted "playerId" +:+ ":" +:+ quoted player +:+ "}".

(** [json.loads] on further texts of the examples. *)
Definition json_loads_rooms (data : string) : option JSON :=
  if String.eqb data (join_text (quoted "r2") "pz") then
    Some (JObj [("type", JStr "join_room"); ("roomId", JStr "r2");
                ("playerId", JStr "pz")])
  else if String.eqb data (join_text (quoted "r1") "pz") then
    Some (JObj [("type", JStr "join_room"); ("roomId", JStr "r1");
                ("playerId", JStr "pz")])
  else if String.eqb data (join_text "[1]" "pz") then
    Some (JObj [("type", JStr "join_room"); ("roomId", JArr [JInt 1]);
                ("playerId", JStr "pz")])
  else if String.eqb data (tagged_text "join_room") then
    Some (JObj [("type", JStr "join_room")])
  else json_loads_sample data.

(** * [app/main.py]: the allowed origins

    Python strings are modelled by [string]; a character of the model is a
    Python character with a code point below 256. *)

(** [str.isspace] on one character: the code points 9 to 13, 28 to 32, 133
    and 160. *)
Definition is_space (c : Ascii.ascii) : bool :=
  let n := Ascii.nat_of_ascii c in
  (Nat.leb 9 n && Nat.leb n 13) || (Nat.leb 28 n && Nat.leb n 32)
  || Nat.eqb n 133 || Nat.eqb n 160.

Definition comma : Ascii.ascii := Ascii.ascii_of_nat 44.

(** [s.lstrip()], [s.rstrip()] and [s.strip()] *)
Fixpoint py_lstrip (s : string) : string :=
  match s with
  | EmptyString => EmptyString
  | String c rest => if is_space c then py_lstrip rest else s
  end.

Fixpoint py_rstrip (s : string) : string :=
  match s with
  | EmptyString => EmptyString
  | String c rest =>
      match py_rstrip rest with
      | EmptyString => if is_space c then EmptyString else String c EmptyString
      | kept => String c kept
      end
  end.

Definition py_strip (s : string) : string := py_rstrip (py_lstrip s).

(** [s.split(",")]: one piece more than there are commas, empty pieces
    included. *)
Fixpoint py_split (s : string) : list string :=
  match s with
  | EmptyString => [EmptyString]
  | String c rest =>
      if Ascii.eqb c comma then EmptyString :: py_split rest
      else match py_split rest with
           | piece :: pieces => String c piece :: pieces
           | [] => [String c EmptyString]
           end
  end.

(** [",".join(pieces)] *)
Fixpoint py_join (pieces : list string) : string :=
  match pieces with
  | [] => EmptyString
  | [piece] => piece
  | piece :: rest => piece +:+ String comma (py_join rest)
  end.

(** Default origins for development *)
Definition default_cors_origins : list string :=
  ["http://localhost:5173"; "http://localhost:3000";
   "http://127.0.0.1:5173"; "http://127.0.0.1:3000"].

(** The module-level computation of [cors_origins] from
    [getattr(settings, 'CORS_ORIGINS', None)]. *)
Definition cors_origins (cors_origins_str : option string) : list string :=
  match cors_origins_str with
  | Some s =>
      if negb (String.eqb s EmptyString) && negb (String.eqb s "*") then
        List.map py_strip
          (List.filter (λ origin, negb (String.eqb (py_strip origin) EmptyString))
                       (py_split s))
      else if String.eqb s "*" then ["*"]
      else default_cors_origins
  | None => default_cors_origins
  end.

(** The value of the [Access-Control-Allow-Origin] header that
    [global_exception_handler] puts on its response; [origin_header] is
    [request.headers.get("origin")]. *)
Definition allow_origin (origins : list string) (origin_header : option string)
    : string :=
  let origin := default "*" origin_header in
  if bool_decide (origins = ["*"]) || bool_decide (origin ∈ origins) then
    if negb (bool_decide (origins = ["*"])) then origin else "*"
  else
    match origins with
    | first :: _ => first
    | [] => "*"
    end.

(** Whether [global_exception_handler] puts the traceback into the body. *)
Definition includes_traceback (secret_key : string) : bool :=
  bool_decide (secret_key ∈ ["your-secret-key-here";
                              "your-secret-key-here-change-in-production"]).

(** Vocabulary: the first and the last character of a string are spaces, the
    string contains a comma, and an origin as [cors_origins] yields them. *)
Definition starts_with_space (s : string) : bool :=
  match s with
  | EmptyString => false
  | String c _ => is_space c
  end.

Fixpoint ends_with_space (s : string) : bool :=
  match s with
  | EmptyString => false
  | String c EmptyString => is_space c
  | String _ rest => ends_with_space rest
  end.

Fixpoint has_comma (s : string) : bool :=
  match s with
  | EmptyString => false
  | String c rest => Ascii.eqb c comma || has_comma rest
  end.

Definition clean_origin (s : string) : bool :=
  negb (String.eqb s EmptyString) && negb (starts_with_space s)
  && negb (ends_with_space s) && negb (has_comma s).

(** * [app/core/config.py]: the secret key *)

(** [str.lower] on one character with a code point below 256. *)
Definition lower_char (c : Ascii.ascii) : Ascii.ascii :=
  let n := Ascii.nat_of_ascii c in
  if (Nat.leb 65 n && Nat.leb n 90) || (Nat.leb 192 n && Nat.leb n 214)
     || (Nat.leb 216 n && Nat.leb n 222)
  then Ascii.ascii_of_nat (n + 32) else c.

Fixpoint py_lower (s : string) : string :=
  match s with
  | EmptyString => EmptyString
  | String c rest => String (lower_char c) (py_lower rest)
  end.

Definition insecure_defaults : list string :=
  ["your-secret-key-here"; "your-secret-key-here-change-in-production";
   "secret"; "changeme"].

(** The test on the environment in [validate_secret_key]; [getenv name] is
    [None] for a variable that is not set. *)
Definition is_production (getenv : string → option string) : bool :=
  let env name := py_lower (default EmptyString (getenv name)) in
  bool_decide (env "ENVIRONMENT" ∈ ["production"; "prod"])
  || bool_decide (env "ENV" ∈ ["production"; "prod"])
  || String.eqb (env "FLASK_ENV") "production".

(** The two [ValueError]s of [validate_secret_key]. *)
Inductive SecretKeyError : Type :=
  | InsecureInProduction
  | TooShort (current_length : nat).

(** [Settings.validate_secret_key]: the error raised, or the value returned
    together with whether the [UserWarning] was issued. *)
Definition validate_secret_key (getenv : string → option string) (v : string)
    : SecretKeyError + string * bool :=
  let insecure := bool_decide (v ∈ insecure_defaults) in
  if insecure && is_production getenv then inl InsecureInProduction
  else if Nat.ltb (String.length v) 32 then inl (TooShort (String.length v))
       else inr (v, insecure).

(** An environment with [ENV=Prod], and one with nothing set. *)
Definition env_prod (name : string) : option string :=
  if String.eqb name "ENV" then Some "Prod" else None.

Definition env_unset (name : string) : option string := None.

(** * The FPS leaderboard

    [app/models/games/fps/leaderboard.py], [app/schemas/games/fps/leaderboard.py]
    and [app/api/v1/games/fps/leaderboard.py].  The table [fps_leaderboard] is
    the list of its rows.  The functions are modelled as far as the value they
    return; turning that value into the declared response model is the
    framework's step after them and is not part of the model. *)

Local Open Scope Z_scope.

(** A row of [FPSLeaderboard]. *)
Record FPSLeaderboard : Type := Row {
  row_id : string;
  row_user_id : string;
  row_username : string;          (* Denormalized *)
  row_score : Z;
  row_kills : Z;
  row_deaths : Z;
  row_game_mode : string;
  row_date : string;
  row_created_at : string
}.

(** What [submit_score] reads of [app.models.user.User]. *)
Record User : Type := { user_id : string; user_username : string }.

(** The fields of [LeaderboardCreate]. *)
Record LeaderboardCreate : Type := {
  in_score : Z;
  in_kills : Z;
  in_deaths : Z;
  in_game_mode : string
}.

(** [LeaderboardCreate.validate_score] *)
Definition validate_score (v : Z) : string + Z :=
  if v <? 0 then inl "Score must be non-negative" else inr v.

(** [LeaderboardCreate.validate_kills_deaths] *)
Definition validate_kills_deaths (v : Z) : string + Z :=
  if v <? 0 then inl "Kills and deaths must be non-negative" else inr v.

Definition error_of {A : Type} (r : string + A) : list string :=
  match r with inl text => [text] | inr _ => [] end.

(** Building a [LeaderboardCreate] from integers: the validators run on the
    fields that are given, the missing [kills] and [deaths] are 0, and the
    errors of all fields are reported together. *)
Definition new_LeaderboardCreate (score : Z) (kills deaths : option Z)
    (game_mode : string) : list string + LeaderboardCreate :=
  let errors :=
    error_of (validate_score score)
    ++ match kills with Some k => error_of (validate_kills_deaths k) | None => [] end
    ++ match deaths with Some d => error_of (validate_kills_deaths d) | None => [] end in
  match errors with
  | [] => inr {| in_score := score; in_kills := default 0 kills;
                 in_deaths := default 0 deaths; in_game_mode := game_mode |}
  | _ => inl errors
  end.

(** What [get_leaderboard] returns. *)
Record LeaderboardResponse : Type := {
  entries : list FPSLeaderboard;
  total : nat;
  limit : nat;
  offset : nat
}.

(** The rows both queries of [get_leaderboard] range over: all of them, or,
    for a truthy [game_mode], those of that mode. *)
Definition matching (game_mode : option string) (db : list FPSLeaderboard)
    : list FPSLeaderboard :=
  match game_mode with
  | Some mode =>
      if String.eqb mode EmptyString then db
      else List.filter (λ row, String.eqb (row_game_mode row) mode) db
  | None => db
  end.

(** [a] may stand before [b] under [ORDER BY score DESC]. *)
Definition score_desc (a b : FPSLeaderboard) : Prop := row_score b ≤ row_score a.

#[global] Instance score_desc_dec : RelDecision score_desc.
Proof. intros a b. unfold score_desc. apply _. Defined.

Section Leaderboard.

(** [ORDER BY score DESC] as the database applies it; the order among rows of
    equal score is the database's choice. *)
Variable order_by_score_desc : list FPSLeaderboard → list FPSLeaderboard.

(** [get_leaderboard], on [offset] and [limit] that passed the checks of
    their [Query] declarations. *)
Definition get_leaderboard (db : list FPSLeaderboard) (offset limit : nat)
    (game_mode : option string) : LeaderboardResponse :=
  {| entries := take limit (drop offset (order_by_score_desc (matching game_mode db)));
     total := length (matching game_mode db);
     limit := limit;
     offset := offset |}.

End Leaderboard.

(** [submit_score].  [accepts_row] says whether the database in use takes
    the row at [db.commit()]: the range of its [Integer] columns, the foreign
    key on [users.id] and the like.  When it does, the new row, with the id
    from [generate_uuid] and the date and time the database fills in, is
    appended to the table and returned; when it does not, [db.commit()]
    raises, nothing is stored and the function returns nothing ([None]). *)
Definition submit_score (accepts_row : FPSLeaderboard → bool)
    (generate_uuid current_date now : string)
    (db : list FPSLeaderboard) (score_in : LeaderboardCreate)
    (current_user : User) : option (list FPSLeaderboard * FPSLeaderboard) :=
  let entry :=
    {| row_id := generate_uuid;
       row_user_id := user_id current_user;
       row_username := user_username current_user;
       row_score := in_score score_in;
       row_kills := in_kills score_in;
       row_deaths := in_deaths score_in;
       row_game_mode := in_game_mode score_in;
       row_date := current_date;
       row_created_at := now |} in
  if accepts_row entry then Some (db ++ [entry], entry) else None.

(** A database whose [Integer] columns are 32 bits wide and that refuses a
    row for no other reason. *)
Definition int32_fits (z : Z) : bool := (- 2 ^ 31 <=? z) && (z <=? 2 ^ 31 - 1).
Definition int32_columns (row : FPSLeaderboard) : bool :=
  int32_fits (row_score row) && int32_fits (row_kills row)
  && int32_fits (row_deaths row).

(** A query restricted to [game_mode] sees the rows of mode [mode]. *)
Definition sees (game_mode : option string) (mode : string) : bool :=
  match game_mode with
  | Some wanted => String.eqb wanted EmptyString || String.eqb mode wanted
  | None => true
  end.

(** No number of the row is negative. *)
Definition row_non_negative (row : FPSLeaderboard) : Prop :=
  0 ≤ row_score row ∧ 0 ≤ row_kills row ∧ 0 ≤ row_deaths row.

(** [ORDER BY score DESC] by merge sort, for the examples. *)
Definition sort_by_score_desc : list FPSLeaderboard → list FPSLeaderboard :=
  sorting.merge_sort score_desc.

Definition sample_row (id mode : string) (score : Z) : FPSLeaderboard :=
  {| row_id := id; row_user_id := "u1"; row_username := "ann";
     row_score := score; row_kills := 1; row_deaths := 0;
     row_game_mode := mode; row_date := "2025-01-01";
     row_created_at := "2025-01-01T00:00:00" |}.

Definition sample_table : list FPSLeaderboard :=
  [sample_row "a" "deathmatch" 10; sample_row "b" "single-player" 30;
   sample_row "c" "deathmatch" 20; sample_row "d" "deathmatch" 20].

Local Close Scope Z_scope.
(** ** The registry operations *)

Lemma manager_eq (a b : FPSConnectionManager) :
  active_connections a = active_connections b →
  connection_players a = connection_players b →
  rooms a = rooms b →
  a = b.
Proof. destruct a, b; simpl; intros -> -> ->; reflexivity. Qed.

Lemma disconnect_active connection_id self :
  active_connections (disconnect connection_id self)
  = delete connection_id (active_connections self).
Proof.
  unfold disconnect.
  destruct (active_connections self !! connection_id) eqn:Hactive;
    destruct (connection_players self !! connection_id); simpl;
    try reflexivity; symmetry; by apply delete_id.
Qed.

Lemma disconnect_players connection_id self :
  connection_players (disconnect connection_id self)
  = delete connection_id (connection_players self).
Proof.
  unfold disconnect.
  destruct (connection_players self !! connection_id) eqn:Hplayer; simpl;
    [reflexivity | symmetry; by apply delete_id].
Qed.

Lemma disconnect_rooms_recorded connection_id self player_id :
  connection_players self !! connection_id = Some player_id →
  rooms (disconnect connection_id self)
  = (λ connections : gset string, connections ∖ {[connection_id]}) <$> rooms self.
Proof. intros Hplayer. unfold disconnect. by rewrite Hplayer. Qed.

Lemma disconnect_rooms_unrecorded connection_id self :
  connection_players self !! connection_id = None →
  rooms (disconnect connection_id self) = rooms self.
Proof. intros Hplayer. unfold disconnect. by rewrite Hplayer. Qed.

(** Removing an id that is in neither dictionary changes nothing. *)
Lemma disconnect_absent connection_id self :
  active_connections self !! connection_id = None →
  connection_players self !! connection_id = None →
  disconnect connection_id self = self.
Proof.
  intros Hactive Hplayer. unfold disconnect. rewrite Hactive, Hplayer.
  by destruct self.
Qed.

Lemma disconnect_twice connection_id self :
  disconnect connection_id (disconnect connection_id self)
  = disconnect connection_id self.
Proof.
  apply disconnect_absent.
  - rewrite disconnect_active. apply lookup_delete_eq.
  - rewrite disconnect_players. apply lookup_delete_eq.
Qed.

Lemma room_members_disconnect connection_id self room_id :
  room_members (disconnect connection_id self) room_id
  = match connection_players self !! connection_id with
    | Some _ => room_members self room_id ∖ {[connection_id]}
    | None => room_members self room_id
    end.
Proof.
  unfold room_members.
  destruct (connection_players self !! connection_id) as [player_id|] eqn:Hplayer.
  - rewrite (disconnect_rooms_recorded _ _ _ Hplayer), lookup_fmap.
    destruct (rooms self !! room_id); simpl; [reflexivity |].
    symmetry. apply leibniz_equiv. intros x. rewrite elem_of_difference.
    split; [by intros [Hx _] | intros Hx; by apply not_elem_of_empty in Hx].
  - by rewrite disconnect_rooms_unrecorded.
Qed.

(** C5: [disconnect] is idempotent.  Calling it a second time on the same
    connection id returns (it has no raising path) and leaves the manager
    exactly as the first call left it: the id is in neither dictionary and
    every connection's transport entry, player record and room memberships
    are what they were after the first call. *)
Theorem disconnect_idempotent (connection_id : string) (self : FPSConnectionManager) :
  let once := disconnect connection_id self in
  let twice := disconnect connection_id once in
  twice = once
  ∧ active_connections once !! connection_id = None
  ∧ connection_players once !! connection_id = None
  ∧ (∀ other, active_connections twice !! other = active_connections once !! other)
  ∧ (∀ other, connection_players twice !! other = connection_players once !! other)
  ∧ (∀ room_id, room_members twice room_id = room_members once room_id).
Proof.
  intros once twice.
  assert (Htwice : twice = once) by apply disconnect_twice.
  split; [exact Htwice |].
  split; [unfold once; rewrite disconnect_active; apply lookup_delete_eq |].
  split; [unfold once; rewrite disconnect_players; apply lookup_delete_eq |].
  rewrite Htwice. repeat split.
Qed.

(** C1, as stated, fails: a connection that is a member of a room and has
    no entry in [connection_players] is still a member of that room after
    [disconnect]. *)
Lemma disconnect_keeps_unrecorded_member :
  ¬ purged "c1" (disconnect "c1" joined_without_player).
Proof.
  intros Hpurged.
  apply (Hpurged (KStr "r1") {["c1"]}); [by vm_compute | set_solver].
Qed.

(** C1, amended: when the connection has a player id on record whenever it
    is a member of some room, then after [disconnect] it is a member of no
    room, and it is in neither [active_connections] nor
    [connection_players]. *)
Theorem disconnect_purges_recorded (connection_id : string)
    (self : FPSConnectionManager) :
  (∀ room_id, connection_id ∈ room_members self room_id →
              is_Some (connection_players self !! connection_id)) →
  purged connection_id (disconnect connection_id self)
  ∧ (∀ room_id, connection_id ∉ room_members (disconnect connection_id self) room_id)
  ∧ active_connections (disconnect connection_id self) !! connection_id = None
  ∧ connection_players (disconnect connection_id self) !! connection_id = None.
Proof.
  intros Hrecorded.
  assert (Hmembers : ∀ room_id,
            connection_id ∉ room_members (disconnect connection_id self) room_id).
  { intros room_id. rewrite room_members_disconnect.
    destruct (connection_players self !! connection_id) eqn:Hplayer.
    - rewrite elem_of_difference, elem_of_singleton. tauto.
    - intros Hin. destruct (Hrecorded room_id Hin) as [? ?]. congruence. }
  split; [| split; [exact Hmembers | split]].
  - intros room_id members Hroom Hin.
    apply (Hmembers room_id). unfold room_members. by rewrite Hroom.
  - rewrite disconnect_active. apply lookup_delete_eq.
  - rewrite disconnect_players. apply lookup_delete_eq.
Qed.

Lemma disconnect_purges_recorded_witness :
  purged "c1" (disconnect "c1" joined_with_player)
  ∧ (∀ room_id, "c1" ∉ room_members (disconnect "c1" joined_with_player) room_id)
  ∧ active_connections (disconnect "c1" joined_with_player) !! "c1" = None
  ∧ connection_players (disconnect "c1" joined_with_player) !! "c1" = None.
Proof.
  apply (disconnect_purges_recorded "c1" joined_with_player).
  intros room_id _. exists (JStr "pa"). reflexivity.
Defined.

(** ** Joining and leaving rooms *)

Lemma rooms_join_lookup connection_id room_id self other :
  rooms (join_room connection_id room_id self) !! other
  = if decide (room_id = other)
    then Some (room_members self room_id ∪ {[connection_id]})
    else rooms self !! other.
Proof.
  unfold join_room, room_members; simpl.
  destruct (decide (room_id = other)) as [<-|Hne].
  - rewrite lookup_alter_eq.
    destruct (rooms self !! room_id) as [members|] eqn:Hroom; simpl.
    + by rewrite Hroom.
    + by rewrite lookup_insert_eq.
  - rewrite lookup_alter_ne by done.
    destruct (rooms self !! room_id); [done | by rewrite lookup_insert_ne].
Qed.

Lemma rooms_leave_lookup connection_id room_id self other :
  rooms (leave_room connection_id room_id self) !! other
  = if decide (room_id = other)
    then (λ members : gset string, members ∖ {[connection_id]})
           <$> rooms self !! room_id
    else rooms self !! other.
Proof.
  unfold leave_room.
  destruct (rooms self !! room_id) as [members|] eqn:Hroom; simpl.
  - destruct (decide (room_id = other)) as [<-|Hne].
    + by rewrite lookup_alter_eq, Hroom.
    + by rewrite lookup_alter_ne.
  - destruct (decide (room_id = other)) as [<-|Hne]; [by rewrite Hroom | done].
Qed.

Lemma room_members_join connection_id room_id self other :
  room_members (join_room connection_id room_id self) other
  = if decide (room_id = other)
    then room_members self room_id ∪ {[connection_id]}
    else room_members self other.
Proof.
  unfold room_members at 1. rewrite rooms_join_lookup.
  by destruct (decide (room_id = other)).
Qed.

Lemma room_members_leave connection_id room_id self other :
  room_members (leave_room connection_id room_id self) other
  = if decide (room_id = other)
    then room_members self room_id ∖ {[connection_id]}
    else room_members self other.
Proof.
  unfold room_members at 1. rewrite rooms_leave_lookup.
  destruct (decide (room_id = other)) as [<-|Hne]; [| done].
  unfold room_members. destruct (rooms self !! room_id); simpl; [done |].
  apply leibniz_equiv. intros x. rewrite elem_of_difference.
  split; [intros Hx; by apply not_elem_of_empty in Hx | by intros [Hx _]].
Qed.

Lemma join_room_twice connection_id room_id self :
  join_room connection_id room_id (join_room connection_id room_id self)
  = join_room connection_id room_id self.
Proof.
  apply manager_eq; try reflexivity.
  apply map_eq. intros other. rewrite !rooms_join_lookup.
  destruct (decide (room_id = other)) as [<-|Hne]; [| done].
  rewrite room_members_join, decide_True by done.
  f_equal. apply leibniz_equiv. intros x.
  rewrite !elem_of_union. tauto.
Qed.

Lemma leave_room_twice connection_id room_id self :
  leave_room connection_id room_id (leave_room connection_id room_id self)
  = leave_room connection_id room_id self.
Proof.
  apply manager_eq.
  - unfold leave_room. destruct (rooms self !! room_id) eqn:Hroom; simpl.
    + by rewrite lookup_alter_eq, Hroom.
    + by rewrite Hroom.
  - unfold leave_room. destruct (rooms self !! room_id) eqn:Hroom; simpl.
    + by rewrite lookup_alter_eq, Hroom.
    + by rewrite Hroom.
  - apply map_eq. intros other. rewrite !rooms_leave_lookup.
    destruct (decide (room_id = other)) as [<-|Hne]; [| done].
    rewrite decide_True by done.
    destruct (rooms self !! room_id) as [members|]; simpl; [| done].
    f_equal. apply leibniz_equiv. intros x.
    rewrite !elem_of_difference. tauto.
Qed.

Lemma leave_room_non_member connection_id room_id self :
  connection_id ∉ room_members self room_id →
  leave_room connection_id room_id self = self.
Proof.
  intros Hnot. apply manager_eq.
  - unfold leave_room. by destruct (rooms self !! room_id).
  - unfold leave_room. by destruct (rooms self !! room_id).
  - apply map_eq. intros other. rewrite rooms_leave_lookup.
    destruct (decide (room_id = other)) as [<-|Hne]; [| done].
    unfold room_members in Hnot.
    destruct (rooms self !! room_id) as [members|]; simpl in *; [| done].
    f_equal. apply leibniz_equiv. intros x.
    rewrite elem_of_difference, elem_of_singleton.
    split; [tauto | intros Hx; split; [done | congruence]].
Qed.

Lemma room_members_apply_call connection_id room_id call self :
  room_members (apply_call connection_id room_id call self) room_id
  = match call with
    | Join => room_members self room_id ∪ {[connection_id]}
    | Leave => room_members self room_id ∖ {[connection_id]}
    end.
Proof.
  destruct call; simpl.
  - by rewrite room_members_join, decide_True.
  - by rewrite room_members_leave, decide_True.
Qed.

(** The calls of one connection on one room never touch another member. *)
Lemma apply_calls_other_members connection_id room_id calls self x :
  x ≠ connection_id →
  x ∈ room_members (apply_calls connection_id room_id calls self) room_id
  ↔ x ∈ room_members self room_id.
Proof.
  intros Hne. unfold apply_calls. revert self.
  induction calls as [|call calls IH]; intros self; simpl; [done |].
  rewrite IH, room_members_apply_call.
  destruct call.
  - rewrite elem_of_union, elem_of_singleton. tauto.
  - rewrite elem_of_difference, elem_of_singleton. tauto.
Qed.

(** C6: [join_room] is an idempotent add and [leave_room] an idempotent
    remove; [leave_room] of a connection that is not a member (also of a room
    id never seen) leaves the manager as it was, and neither has a raising
    path.  After any sequence of such calls for one (connection, room) pair,
    the member set of the room is the one the last call alone gives. *)
Theorem join_leave_idempotent (connection_id : string) (room_id : Key)
    (self : FPSConnectionManager) :
  join_room connection_id room_id (join_room connection_id room_id self)
    = join_room connection_id room_id self
  ∧ leave_room connection_id room_id (leave_room connection_id room_id self)
    = leave_room connection_id room_id self
  ∧ (connection_id ∉ room_members self room_id →
     leave_room connection_id room_id self = self)
  ∧ (∀ calls last,
       room_members
         (apply_calls connection_id room_id (calls ++ [last]) self) room_id
       = room_members (apply_call connection_id room_id last self) room_id)
  ∧ (∀ calls last,
       connection_id ∈ room_members
         (apply_calls connection_id room_id (calls ++ [last]) self) room_id
       ↔ last = Join).
Proof.
  split; [apply join_room_twice |].
  split; [apply leave_room_twice |].
  split; [apply leave_room_non_member |].
  assert (Hlast : ∀ calls last,
    room_members
      (apply_calls connection_id room_id (calls ++ [last]) self) room_id
    = room_members (apply_call connection_id room_id last self) room_id).
  { intros calls last. unfold apply_calls. rewrite foldl_app. simpl.
    rewrite !room_members_apply_call.
    apply leibniz_equiv. intros x.
    pose proof (apply_calls_other_members connection_id room_id calls self x) as Hx.
    unfold apply_calls in Hx.
    destruct (decide (x = connection_id)) as [->|Hne].
    - destruct last.
      + rewrite !elem_of_union, !elem_of_singleton. tauto.
      + rewrite !elem_of_difference, !elem_of_singleton. tauto.
    - specialize (Hx Hne). destruct last.
      + rewrite !elem_of_union, Hx. tauto.
      + rewrite !elem_of_difference, Hx. tauto. }
  split; [exact Hlast |].
  intros calls last. rewrite Hlast, room_members_apply_call.
  destruct last.
  - rewrite elem_of_union, elem_of_singleton. split; [done | by right].
  - rewrite elem_of_difference, elem_of_singleton.
    split; [intros [_ Hx]; by destruct Hx | done].
Qed.

Lemma join_leave_idempotent_witness :
  leave_room "c2" (KStr "r1") joined_with_player = joined_with_player.
Proof.
  apply (join_leave_idempotent "c2" (KStr "r1") joined_with_player).
  vm_compute. intros Hin. discriminate Hin.
Defined.

(** ** Broadcasting to a room *)

Section Broadcast.

Variable send_json : WebSocket → JSON → option string.

Lemma disconnect_all_active (ids : list string) (self : FPSConnectionManager)
    (connection_id : string) :
  active_connections self !! connection_id = None ∨ connection_id ∈ ids →
  active_connections
    (foldl (λ acc c, disconnect c acc) self ids) !! connection_id = None.
Proof.
  revert self. induction ids as [|c ids IH]; intros self Hcase; simpl.
  - destruct Hcase as [Hnone|Hin]; [done | by apply elem_of_nil in Hin].
  - apply IH. rewrite disconnect_active.
    destruct (decide (c = connection_id)) as [->|Hne].
    + left. apply lookup_delete_eq.
    + rewrite lookup_delete_ne by done.
      destruct Hcase as [Hnone|Hin]; [by left |].
      apply elem_of_cons in Hin as [Heq|Hin]; [congruence | by right].
Qed.

(** The loop never raises and never touches the manager; it writes the frame
    to the members it reaches and collects the ones whose transport
    raised. *)
Lemma broadcast_loop_run message exclude members disconnected self :
  broadcast_loop send_json message exclude members disconnected self
  = (Returned (disconnected ++ failing send_json self message exclude members),
     self,
     (λ c, (c, message)) <$> reached send_json self message exclude members).
Proof.
  revert disconnected.
  induction members as [|c members IH]; intros disconnected; simpl.
  - unfold ret. by rewrite app_nil_r.
  - unfold accepts, refuses.
    destruct (decide (Some c = exclude)) as [Heq|Hne].
    + rewrite bool_decide_eq_false_2 by (intros Hc; by apply Hc). simpl.
      apply IH.
    + rewrite bool_decide_eq_true_2 by done. simpl.
      unfold bind at 1, get_manager at 1.
      destruct (active_connections self !! c) as [websocket|] eqn:Hactive.
      * unfold bind at 1, try_except, bind at 1, ws_send.
        destruct (send_json websocket message) as [text|] eqn:Hsend; simpl.
        -- rewrite IH. by rewrite <- app_assoc.
        -- rewrite IH. reflexivity.
      * rewrite IH. reflexivity.
Qed.

Lemma broadcast_to_room_run message room_id exclude self members :
  rooms self !! room_id = Some members →
  broadcast_to_room send_json message room_id exclude self
  = (Returned tt,
     foldl (λ acc c, disconnect c acc) self
           (failing send_json self message exclude (elements members)),
     (λ c, (c, message))
       <$> reached send_json self message exclude (elements members)).
Proof.
  intros Hroom. unfold broadcast_to_room, bind at 1, get_manager at 1.
  rewrite Hroom. unfold bind. rewrite broadcast_loop_run. simpl.
  by rewrite app_nil_r.
Qed.

Lemma broadcast_to_room_unknown message room_id exclude self :
  rooms self !! room_id = None →
  broadcast_to_room send_json message room_id exclude self = (Returned tt, self, []).
Proof.
  intros Hroom. unfold broadcast_to_room, bind, get_manager. by rewrite Hroom.
Qed.

(** A broadcast writes only the frame it was given, only to members of the
    room that are registered, and never to the excluded connection. *)
Lemma broadcast_to_room_delivered message room_id exclude self c m :
  (c, m) ∈ delivered (broadcast_to_room send_json message room_id exclude self) →
  m = message ∧ c ∈ room_members self room_id ∧ Some c ≠ exclude
  ∧ is_Some (active_connections self !! c).
Proof.
  unfold room_members.
  destruct (rooms self !! room_id) as [members|] eqn:Hroom.
  - rewrite (broadcast_to_room_run _ _ _ _ _ Hroom). unfold delivered; simpl.
    intros Hin. apply list_elem_of_fmap in Hin as (c' & Heq & Hin).
    inversion Heq; subst c' m. clear Heq.
    apply list_elem_of_In, filter_In in Hin as [Hin Hcond].
    apply andb_prop in Hcond as [Hexcl Hacc].
    apply bool_decide_eq_true in Hexcl.
    split; [done |]. split; [by apply elem_of_elements, list_elem_of_In |].
    split; [done |].
    unfold accepts in Hacc. by destruct (active_connections self !! c).
  - rewrite (broadcast_to_room_unknown _ _ _ _ Hroom). unfold delivered; simpl.
    intros Hin. by apply elem_of_nil in Hin.
Qed.

End Broadcast.

(** C4: a broadcast to a room without members, be it a room id never seen
    or a room whose member set is empty, returns normally, writes to no
    transport and leaves the whole manager as it was. *)
Theorem broadcast_no_members_noop
    (send_json : WebSocket → JSON → option string) (message : JSON)
    (room_id : Key) (exclude : option string) (self : FPSConnectionManager) :
  room_members self room_id = ∅ →
  broadcast_to_room send_json message room_id exclude self
  = (Returned tt, self, []).
Proof.
  unfold room_members. intros Hempty.
  destruct (rooms self !! room_id) as [members|] eqn:Hroom; simpl in Hempty.
  - rewrite (broadcast_to_room_run _ _ _ _ _ _ Hroom). subst members.
    unfold reached, failing. by rewrite elements_empty.
  - by apply broadcast_to_room_unknown.
Qed.

Lemma broadcast_no_members_noop_witness :
  broadcast_to_room c2_down (JObj [("type", JStr "game_state")]) (KStr "r9")
                    None three_in_room
    = (Returned tt, three_in_room, [])
  ∧ broadcast_to_room c2_down (JObj [("type", JStr "game_state")]) (KStr "r1")
                      None room_emptied
    = (Returned tt, room_emptied, []).
Proof.
  split.
  - apply (broadcast_no_members_noop c2_down _ (KStr "r9") None three_in_room).
    reflexivity.
  - apply (broadcast_no_members_noop c2_down _ (KStr "r1") None room_emptied).
    reflexivity.
Defined.

(** ** Properties of the manager kept by every computation *)

Lemma manager_after_bind {A B : Type} (m : M A) (k : A → M B) self :
  manager_after (bind m k self)
  = match outcome (m self) with
    | Returned a => manager_after (k a (manager_after (m self)))
    | Raised _ => manager_after (m self)
    end.
Proof.
  unfold bind, manager_after, outcome.
  destruct (m self) as [[[a|e] self1] out1]; simpl; [| reflexivity].
  by destruct (k a self1) as [[r self2] out2].
Qed.

Lemma manager_after_try {A : Type} (body : M A) (handler : Exc → M A) self :
  manager_after (try_except body handler self)
  = match outcome (body self) with
    | Returned _ => manager_after (body self)
    | Raised e => manager_after (handler e (manager_after (body self)))
    end.
Proof.
  unfold try_except, manager_after, outcome.
  destruct (body self) as [[[a|e] self1] out1]; simpl; [reflexivity |].
  by destruct (handler e self1) as [[r self2] out2].
Qed.

Section Preservation.

Variable json_loads : string → option JSON.
Variable send_json : WebSocket → JSON → option string.
Variable P : FPSConnectionManager → Prop.

Lemma preserves_ret {A : Type} (a : A) : preserves P (ret a).
Proof. intros self HP. exact HP. Qed.

Lemma preserves_raise {A : Type} (e : Exc) : preserves P (raise (A := A) e).
Proof. intros self HP. exact HP. Qed.

Lemma preserves_get_manager : preserves P get_manager.
Proof. intros self HP. exact HP. Qed.

Lemma preserves_update f : (∀ self, P self → P (f self)) → preserves P (update f).
Proof. intros Hf self HP. by apply Hf. Qed.

Lemma preserves_ws_send websocket recipient message :
  preserves P (ws_send send_json websocket recipient message).
Proof.
  intros self HP. unfold ws_send, manager_after.
  by destruct (send_json websocket message).
Qed.

Lemma preserves_bind {A B : Type} (m : M A) (k : A → M B) :
  preserves P m → (∀ a, preserves P (k a)) → preserves P (bind m k).
Proof.
  intros Hm Hk self HP. rewrite manager_after_bind.
  destruct (outcome (m self)); [by apply Hk, Hm | by apply Hm].
Qed.

Lemma preserves_try {A : Type} (body : M A) (handler : Exc → M A) :
  preserves P body → (∀ e, preserves P (handler e)) →
  preserves P (try_except body handler).
Proof.
  intros Hbody Hhandler self HP. rewrite manager_after_try.
  destruct (outcome (body self)); [by apply Hbody | by apply Hhandler, Hbody].
Qed.

Lemma preserves_py_get message key : preserves P (py_get message key).
Proof. destruct message; simpl; first [apply preserves_ret | apply preserves_raise]. Qed.

Lemma preserves_as_key room_id : preserves P (as_key room_id).
Proof.
  unfold as_key. destruct (hash_key room_id);
    [apply preserves_ret | apply preserves_raise].
Qed.

(** What the methods of the manager must keep. *)
Hypothesis P_disconnect : ∀ c self, P self → P (disconnect c self).
Hypothesis P_leave_room : ∀ c room_id self, P self → P (leave_room c room_id self).
Hypothesis P_join_recorded : ∀ c room_id player_id self,
  P self → key_truthy room_id = true → truthy player_id = true →
  P (set_player c player_id (join_room c room_id self)).

Lemma preserves_send_personal_message message connection_id :
  preserves P (send_personal_message send_json message connection_id).
Proof.
  apply preserves_bind; [apply preserves_get_manager |]. intros self.
  destruct (active_connections self !! connection_id); [| apply preserves_ret].
  apply preserves_try; [apply preserves_ws_send |].
  intros e. apply preserves_update. intros. by apply P_disconnect.
Qed.

Lemma P_disconnect_all (ids : list string) self :
  P self → P (foldl (λ acc c, disconnect c acc) self ids).
Proof.
  revert self. induction ids as [|c ids IH]; intros self HP; simpl; [done |].
  by apply IH, P_disconnect.
Qed.

Lemma preserves_broadcast_to_room message room_id exclude :
  preserves P (broadcast_to_room send_json message room_id exclude).
Proof.
  intros self HP.
  destruct (rooms self !! room_id) as [members|] eqn:Hroom.
  - rewrite (broadcast_to_room_run _ _ _ _ _ _ Hroom). unfold manager_after; simpl.
    by apply P_disconnect_all.
  - by rewrite broadcast_to_room_unknown.
Qed.

Lemma preserves_as_key_bind {B : Type} (room_id : JSON) (k : Key → M B) :
  (∀ room_key, hash_key room_id = Some room_key → preserves P (k room_key)) →
  preserves P (bind (as_key room_id) k).
Proof.
  intros Hk self HP. rewrite manager_after_bind. unfold as_key.
  destruct (hash_key room_id) as [room_key|] eqn:Hkey; simpl; [| exact HP].
  by apply (Hk room_key).
Qed.

Lemma preserves_update_twice {B : Type} f g (rest : M B) :
  (∀ self, P self → P (g (f self))) → preserves P rest →
  preserves P (update f;; update g;; rest).
Proof.
  intros Hfg Hrest self HP. rewrite !manager_after_bind. simpl.
  by apply Hrest, Hfg.
Qed.

Lemma hash_key_truthy room_id room_key :
  hash_key room_id = Some room_key → key_truthy room_key = truthy room_id.
Proof.
  destruct room_id as [|[]| | | |]; simpl; intros Hkey; inversion Hkey; reflexivity.
Qed.

Ltac keep :=
  repeat first
    [ apply preserves_ret
    | apply preserves_raise
    | apply preserves_get_manager
    | apply preserves_ws_send
    | apply preserves_py_get
    | apply preserves_broadcast_to_room
    | apply preserves_update; intros; apply P_leave_room; assumption
    | apply preserves_update; intros; apply P_disconnect; assumption
    | apply preserves_as_key_bind; intros ? ?
    | apply preserves_bind; [| intros ?]
    | match goal with
      | |- preserves _ (if ?b then _ else _) => destruct b eqn:?
      end ].

Lemma preserves_handle_message websocket connection_id message :
  preserves P (handle_message send_json websocket connection_id message).
Proof.
  unfold handle_message.
  apply preserves_bind; [apply preserves_py_get | intros message_type].
  destruct (eq_str message_type "join_room").
  - apply preserves_bind; [apply preserves_py_get | intros room_id].
    apply preserves_bind; [apply preserves_py_get | intros player_id].
    destruct (truthy room_id && truthy player_id) eqn:Hboth; [| keep].
    apply andb_prop in Hboth as [Hroom Hplayer].
    apply preserves_as_key_bind. intros room_key Hkey.
    apply preserves_update_twice; [| keep].
    intros self HP. apply P_join_recorded; [done | | done].
    by rewrite (hash_key_truthy _ _ Hkey).
  - keep.
Qed.

Lemma preserves_receive_iteration websocket connection_id data :
  preserves P (receive_iteration json_loads send_json websocket connection_id data).
Proof.
  unfold receive_iteration. apply preserves_try.
  - destruct (json_loads data); [apply preserves_handle_message | keep].
  - intros []; keep.
Qed.

Lemma preserves_receive_loop websocket connection_id inbound :
  preserves P (receive_loop json_loads send_json websocket connection_id inbound).
Proof.
  induction inbound as [|[data|] inbound IH]; simpl; [keep | | keep].
  apply preserves_bind; [apply preserves_receive_iteration | intros _; exact IH].
Qed.

Lemma preserves_guarded connection_id body :
  preserves P body → preserves P (guarded connection_id body).
Proof.
  intros Hbody. unfold guarded.
  apply preserves_try; [keep; exact Hbody | intros e; keep].
Qed.

Lemma preserves_serve websocket connection_id inbound :
  preserves P (serve json_loads send_json websocket connection_id inbound).
Proof. apply preserves_guarded, preserves_receive_loop. Qed.

End Preservation.

(** ** Properties kept along a history *)

Section HistoryPreservation.

Variable json_loads : string → option JSON.
Variable send_json : WebSocket → JSON → option string.
Variable P : FPSConnectionManager → Prop.
Variable Q : string → Prop.
Variable J : Prop.

Hypothesis P_disconnect : ∀ c self, P self → P (disconnect c self).
Hypothesis P_leave_room : ∀ c room_id self, P self → P (leave_room c room_id self).
Hypothesis P_join_recorded : ∀ c room_id player_id self,
  P self → key_truthy room_id = true → truthy player_id = true →
  P (set_player c player_id (join_room c room_id self)).
Hypothesis P_connect : ∀ websocket c self, Q c → P self → P (connect websocket c self).
Hypothesis P_join_room : ∀ c room_id self, J → P self → P (join_room c room_id self).

Lemma preserves_run_action action :
  action_within Q J action →
  preserves P (run_action json_loads send_json action).
Proof.
  destruct action; simpl; intros Hwithin.
  - apply preserves_update. intros. by apply P_connect.
  - apply preserves_update. intros. by apply P_disconnect.
  - by apply preserves_send_personal_message.
  - by apply preserves_broadcast_to_room.
  - apply preserves_update. intros. by apply P_join_room.
  - apply preserves_update. intros. by apply P_leave_room.
  - apply preserves_bind; [by apply preserves_serve | intros; apply preserves_ret].
  - apply preserves_bind; [| intros; apply preserves_ret].
    unfold fps_websocket_endpoint.
    apply preserves_bind; [apply preserves_update; intros; by apply P_connect |].
    intros _. apply preserves_guarded; [done |].
    apply preserves_bind; [apply preserves_ws_send |].
    intros _. by apply preserves_receive_loop.
Qed.

Lemma run_actions_keep actions self :
  Forall (action_within Q J) actions →
  P self → P (run_actions json_loads send_json actions self).
Proof.
  unfold run_actions. revert self.
  induction actions as [|action actions IH]; intros self Hall HP; simpl; [done |].
  inversion Hall as [|? ? Hhead Htail]; subst.
  apply IH; [done |]. by apply preserves_run_action.
Qed.

End HistoryPreservation.

(** A room id that is a key of [rooms] stays one, whatever happens. *)
Lemma room_persists json_loads send_json actions room_id self :
  is_Some (rooms self !! room_id) →
  is_Some (rooms (run_actions json_loads send_json actions self) !! room_id).
Proof.
  apply (run_actions_keep json_loads send_json
           (λ s, is_Some (rooms s !! room_id)) (λ _, True) True).
  - intros c s [members Hroom]. unfold disconnect.
    destruct (connection_players s !! c); simpl; [| by eexists].
    rewrite lookup_fmap, Hroom. by eexists.
  - intros c r s [members Hroom]. rewrite rooms_leave_lookup.
    destruct (decide (r = room_id)) as [->|]; [| by eexists].
    rewrite Hroom. by eexists.
  - intros c r p s [members Hroom] _ _.
    change (rooms (set_player c p (join_room c r s)))
      with (rooms (join_room c r s)).
    rewrite rooms_join_lookup.
    destruct (decide (r = room_id)); by eexists.
  - intros ws c s _ Hroom. exact Hroom.
  - intros c r s _ [members Hroom]. rewrite rooms_join_lookup.
    destruct (decide (r = room_id)); by eexists.
  - apply Forall_forall. intros [] _; exact I.
Qed.

(** A connection that is not in [active_connections] stays out of it as long
    as nothing registers it anew. *)
Lemma unregistered_persists json_loads send_json actions connection_id self :
  Forall (λ action, registers connection_id action = false) actions →
  active_connections self !! connection_id = None →
  active_connections
    (run_actions json_loads send_json actions self) !! connection_id = None.
Proof.
  intros Hactions.
  apply (run_actions_keep json_loads send_json
           (λ s, active_connections s !! connection_id = None)
           (λ c, c ≠ connection_id) True).
  - intros c s Hnone. rewrite disconnect_active.
    destruct (decide (c = connection_id)) as [->|];
      [apply lookup_delete_eq | by rewrite lookup_delete_ne].
  - intros c r s Hnone. unfold leave_room. by destruct (rooms s !! r).
  - intros c r p s Hnone _ _. exact Hnone.
  - intros ws c s Hne Hnone. simpl. by rewrite lookup_insert_ne.
  - intros c r s _ Hnone. exact Hnone.
  - eapply Forall_impl; [exact Hactions |].
    intros [] Hreg; simpl in *; try exact I;
      by apply bool_decide_eq_false in Hreg.
Qed.

Lemma disconnect_all_shrinks (ids : list string) self c room_id :
  c ∉ room_members self room_id →
  c ∉ room_members (foldl (λ acc c', disconnect c' acc) self ids) room_id.
Proof.
  revert self. induction ids as [|c' ids IH]; intros self Hnot; simpl; [done |].
  apply IH. rewrite room_members_disconnect.
  destruct (connection_players self !! c'); [| done].
  rewrite elem_of_difference. tauto.
Qed.

Lemma disconnect_all_members (ids : list string) self c room_id :
  c ∈ ids → is_Some (connection_players self !! c) →
  c ∉ room_members (foldl (λ acc c', disconnect c' acc) self ids) room_id.
Proof.
  revert self. induction ids as [|c' ids IH]; intros self Hin Hplayer; simpl.
  - by apply elem_of_nil in Hin.
  - destruct (decide (c' = c)) as [->|Hne].
    + apply disconnect_all_shrinks. rewrite room_members_disconnect.
      destruct Hplayer as [player_id ->].
      rewrite elem_of_difference, elem_of_singleton. tauto.
    + apply IH.
      * apply elem_of_cons in Hin as [Heq|Hin]; [congruence | done].
      * rewrite disconnect_players. by rewrite lookup_delete_ne.
Qed.

(** C2: when the transport of one member of the room raises during a
    broadcast, the broadcast still returns normally, every other member that
    is registered and whose transport accepts the frame receives it, and the
    failed connection is disconnected: it is out of [active_connections] (and,
    if it had a player id on record, out of the room), so that no later
    broadcast writes to it, whatever happened in between short of registering
    that id anew. *)
Theorem broadcast_survives_failure
    (send_json : WebSocket → JSON → option string) (message : JSON)
    (room_id : Key) (exclude : option string) (self : FPSConnectionManager)
    (members : gset string) (failed : string) (websocket : WebSocket)
    (text : string) :
  rooms self !! room_id = Some members →
  failed ∈ members →
  Some failed ≠ exclude →
  active_connections self !! failed = Some websocket →
  send_json websocket message = Some text →
  let run := broadcast_to_room send_json message room_id exclude self in
  outcome run = Returned tt
  ∧ (∀ other websocket',
       other ∈ members → Some other ≠ exclude →
       active_connections self !! other = Some websocket' →
       send_json websocket' message = None →
       (other, message) ∈ delivered run)
  ∧ active_connections (manager_after run) !! failed = None
  ∧ (is_Some (connection_players self !! failed) →
     failed ∉ room_members (manager_after run) room_id)
  ∧ (∀ json_loads' send_json' actions message' room_id' exclude' m,
       Forall (λ action, registers failed action = false) actions →
       (failed, m) ∉ delivered
         (broadcast_to_room send_json' message' room_id' exclude'
            (run_actions json_loads' send_json' actions (manager_after run)))).
Proof.
  intros Hroom Hmember Hexclude Hactive Hsend run.
  unfold run. rewrite (broadcast_to_room_run _ _ _ _ _ _ Hroom).
  unfold outcome, manager_after, delivered; simpl.
  assert (Hfailing :
            failed ∈ failing send_json self message exclude (elements members)).
  { apply list_elem_of_In, filter_In. split.
    - by apply list_elem_of_In, elem_of_elements.
    - rewrite bool_decide_eq_true_2 by done. unfold refuses.
      by rewrite Hactive, Hsend. }
  assert (Hgone :
            active_connections
              (foldl (λ acc c, disconnect c acc) self
                 (failing send_json self message exclude (elements members)))
              !! failed = None).
  { apply disconnect_all_active. by right. }
  split; [reflexivity |].
  split.
  { intros other websocket' Hother Hnot_excluded Hactive' Hsend'.
    apply list_elem_of_fmap. exists other. split; [reflexivity |].
    apply list_elem_of_In, filter_In. split.
    - by apply list_elem_of_In, elem_of_elements.
    - rewrite bool_decide_eq_true_2 by done. unfold accepts.
      by rewrite Hactive', Hsend'. }
  split; [exact Hgone |].
  split; [intros Hplayer; by apply disconnect_all_members |].
  intros json_loads' send_json' actions message' room_id' exclude' m Hactions Hin.
  apply broadcast_to_room_delivered in Hin as (_ & _ & _ & Hlive).
  rewrite (unregistered_persists _ _ _ _ _ Hactions Hgone) in Hlive.
  by destruct Hlive.
Qed.

Lemma broadcast_survives_failure_witness :
  let run := broadcast_to_room c2_down (JObj [("type", JStr "game_state")])
               (KStr "r1") (Some "c1") three_in_room in
  outcome run = Returned tt
  ∧ ("c3", JObj [("type", JStr "game_state")]) ∈ delivered run
  ∧ active_connections (manager_after run) !! "c2" = None
  ∧ "c2" ∉ room_members (manager_after run) (KStr "r1").
Proof.
  pose proof (broadcast_survives_failure c2_down
                (JObj [("type", JStr "game_state")]) (KStr "r1") (Some "c1")
                three_in_room {["c1"; "c2"; "c3"]} "c2" (Socket 2)
                "connection closed") as Hthm.
  destruct Hthm as (Hreturned & Hothers & Hgone & Hroom & _).
  - by vm_compute.
  - set_solver.
  - discriminate.
  - reflexivity.
  - reflexivity.
  - split; [exact Hreturned |].
    split; [| split; [exact Hgone | apply Hroom; by eexists]].
    apply (Hothers "c3" (Socket 3)); [set_solver | discriminate | reflexivity | reflexivity].
Defined.

(** ** The life of a room entry *)

Lemma rooms_lookup_members self room_id :
  is_Some (rooms self !! room_id) →
  rooms self !! room_id = Some (room_members self room_id).
Proof. intros [members Hroom]. unfold room_members. by rewrite Hroom. Qed.

(** C9: the first [join_room] on a room id creates its entry in [rooms], and
    nothing that happens afterwards (calls of the manager's methods, runs of
    the endpoint, disconnects) deletes the entry: the room id stays a key,
    bound to the current member set, which is the empty set once every member
    has left. *)
Theorem room_entry_persists
    (json_loads : string → option JSON)
    (send_json : WebSocket → JSON → option string)
    (connection_id : string) (room_id : Key) (self : FPSConnectionManager)
    (actions : list Action) :
  let joined := join_room connection_id room_id self in
  let later := run_actions json_loads send_json actions joined in
  (rooms self !! room_id = None → rooms joined !! room_id = Some {[connection_id]})
  ∧ is_Some (rooms later !! room_id)
  ∧ rooms later !! room_id = Some (room_members later room_id)
  ∧ ((∀ c, c ∉ room_members later room_id) → rooms later !! room_id = Some ∅).
Proof.
  intros joined later.
  assert (Hkey : is_Some (rooms later !! room_id)).
  { apply room_persists. unfold joined. rewrite rooms_join_lookup.
    rewrite decide_True by done. by eexists. }
  split.
  { intros Hfresh. unfold joined. rewrite rooms_join_lookup.
    rewrite decide_True by done. unfold room_members. rewrite Hfresh. simpl.
    f_equal. apply leibniz_equiv. intros x. rewrite elem_of_union.
    split; [intros [Hx|Hx]; [by apply not_elem_of_empty in Hx | done] | by right]. }
  split; [exact Hkey |].
  split; [by apply rooms_lookup_members |].
  intros Hnone. rewrite (rooms_lookup_members _ _ Hkey). f_equal.
  apply leibniz_equiv. intros x.
  split; [intros Hx; by apply Hnone in Hx | intros Hx; by apply not_elem_of_empty in Hx].
Qed.

Lemma room_entry_persists_witness :
  rooms (join_room "c1" (KStr "r1") init) !! KStr "r1" = Some {["c1"]}
  ∧ rooms (run_actions json_loads_sample all_up
             [CallLeaveRoom "c1" (KStr "r1"); CallDisconnect "c1"]
             (join_room "c1" (KStr "r1") init)) !! KStr "r1" = Some ∅.
Proof.
  pose proof (room_entry_persists json_loads_sample all_up "c1" (KStr "r1") init
                [CallLeaveRoom "c1" (KStr "r1"); CallDisconnect "c1"])
    as (Hcreated & _ & _ & Hempty).
  split; [apply Hcreated; reflexivity |].
  apply Hempty. intros c. vm_compute. intros Hin. discriminate Hin.
Defined.

(** ** Running the monad *)

Lemma bind_ret {A B : Type} (a : A) (k : A → M B) self :
  bind (ret a) k self = k a self.
Proof. unfold bind, ret. by destruct (k a self) as [[r self2] out2]. Qed.

Lemma bind_raise {A B : Type} (e : Exc) (k : A → M B) self :
  bind (raise e) k self = (Raised e, self, []).
Proof. reflexivity. Qed.

Lemma bind_get_manager {B : Type} (k : FPSConnectionManager → M B) self :
  bind get_manager k self = k self self.
Proof. unfold bind, get_manager. by destruct (k self self) as [[r self2] out2]. Qed.

Lemma bind_update {B : Type} f (k : unit → M B) self :
  bind (update f) k self = k tt (f self).
Proof. unfold bind, update. by destruct (k tt (f self)) as [[r self2] out2]. Qed.

Lemma bind_py_get {B : Type} fields key (k : JSON → M B) self :
  bind (py_get (JObj fields) key) k self = k (assoc_get fields key) self.
Proof. apply bind_ret. Qed.

Lemma bind_as_key {B : Type} room_id room_key (k : Key → M B) self :
  hash_key room_id = Some room_key →
  bind (as_key room_id) k self = k room_key self.
Proof. intros Hkey. unfold as_key. rewrite Hkey. apply bind_ret. Qed.

Lemma bind_ws_send_accepted {B : Type} send_json websocket recipient message
    (k : unit → M B) self :
  send_json websocket message = None →
  bind (ws_send send_json websocket recipient message) k self
  = (outcome (k tt self), manager_after (k tt self),
     (recipient, message) :: delivered (k tt self)).
Proof.
  intros Hsend. unfold bind, ws_send. rewrite Hsend.
  by destruct (k tt self) as [[r self2] out2].
Qed.

Lemma result_eta {A : Type} (x : Outcome A * FPSConnectionManager * list Delivery) :
  x = (outcome x, manager_after x, delivered x).
Proof. by destruct x as [[r self] out]. Qed.

Lemma eq_str_true v lit : eq_str v lit = true → v = JStr lit.
Proof.
  destruct v; simpl; try discriminate.
  intros Heq. by apply String.eqb_eq in Heq as ->.
Qed.

(** ** One message at a time *)

Section Messages.

Variable json_loads : string → option JSON.
Variable send_json : WebSocket → JSON → option string.
Variable websocket : WebSocket.
Variable connection_id : string.

Lemma handle_unrecognized fields self :
  recognized (assoc_get fields "type") = false →
  handle_message send_json websocket connection_id (JObj fields) self
  = (Returned tt, self, []).
Proof.
  unfold recognized. intros Hnot.
  apply orb_false_elim in Hnot as [Hnot Hping].
  apply orb_false_elim in Hnot as [Hnot Hstate].
  apply orb_false_elim in Hnot as [Hjoin Hleave].
  unfold handle_message. rewrite bind_py_get.
  by rewrite Hjoin, Hleave, Hstate, Hping.
Qed.

Lemma handle_ping fields self :
  eq_str (assoc_get fields "type") "ping" = true →
  handle_message send_json websocket connection_id (JObj fields) self
  = ws_send send_json websocket connection_id pong_msg self.
Proof.
  intros Htype. unfold handle_message. rewrite bind_py_get.
  by rewrite (eq_str_true _ _ Htype).
Qed.

Lemma handle_game_state fields room_key self :
  eq_str (assoc_get fields "type") "game_state" = true →
  truthy (assoc_get fields "roomId") = true →
  hash_key (assoc_get fields "roomId") = Some room_key →
  handle_message send_json websocket connection_id (JObj fields) self
  = broadcast_to_room send_json (JObj fields) room_key (Some connection_id) self.
Proof.
  intros Htype Htruthy Hkey.
  assert (Hjoin : eq_str (assoc_get fields "type") "join_room" = false)
    by (by rewrite (eq_str_true _ _ Htype)).
  assert (Hleave : eq_str (assoc_get fields "type") "leave_room" = false)
    by (by rewrite (eq_str_true _ _ Htype)).
  unfold handle_message. rewrite bind_py_get, Hjoin, Hleave, Htype.
  rewrite bind_py_get, Htruthy. by rewrite (bind_as_key _ _ _ _ Hkey).
Qed.

Lemma handle_leave_room fields room_key self :
  eq_str (assoc_get fields "type") "leave_room" = true →
  truthy (assoc_get fields "roomId") = true →
  hash_key (assoc_get fields "roomId") = Some room_key →
  send_json websocket (room_left_msg (assoc_get fields "roomId")) = None →
  let player_id := default JNull (connection_players self !! connection_id) in
  let notify :=
    (if truthy player_id
     then broadcast_to_room send_json
            (player_left_msg player_id (assoc_get fields "roomId"))
            room_key (Some connection_id)
     else ret tt) (leave_room connection_id room_key self) in
  handle_message send_json websocket connection_id (JObj fields) self
  = (outcome notify, manager_after notify,
     (connection_id, room_left_msg (assoc_get fields "roomId"))
       :: delivered notify).
Proof.
  intros Htype Htruthy Hkey Hsend player_id notify.
  assert (Hjoin : eq_str (assoc_get fields "type") "join_room" = false)
    by (by rewrite (eq_str_true _ _ Htype)).
  unfold handle_message. rewrite bind_py_get, Hjoin, Htype.
  rewrite bind_py_get, bind_get_manager, Htruthy.
  rewrite (bind_as_key _ _ _ _ Hkey), bind_update.
  by rewrite (bind_ws_send_accepted _ _ _ _ _ _ Hsend).
Qed.

Lemma receive_iteration_returned data message self result self1 out :
  json_loads data = Some message →
  handle_message send_json websocket connection_id message self
    = (Returned result, self1, out) →
  receive_iteration json_loads send_json websocket connection_id data self
  = (Returned result, self1, out).
Proof.
  intros Hloads Hrun. unfold receive_iteration, try_except.
  by rewrite Hloads, Hrun.
Qed.

Lemma serve_cons_returned data rest self self1 out :
  receive_iteration json_loads send_json websocket connection_id data self
    = (Returned tt, self1, out) →
  serve json_loads send_json websocket connection_id (Text data :: rest) self
  = (outcome (serve json_loads send_json websocket connection_id rest self1),
     manager_after (serve json_loads send_json websocket connection_id rest self1),
     out ++ delivered (serve json_loads send_json websocket connection_id rest self1)).
Proof.
  intros Hrun. unfold serve, guarded, try_except.
  cbn [receive_loop]. unfold bind. rewrite Hrun.
  destruct (receive_loop json_loads send_json websocket connection_id rest self1)
    as [[[[]|e] self2] out2];
    unfold update, ret, outcome, manager_after, delivered; simpl;
    by rewrite ?app_nil_r, ?app_assoc.
Qed.

End Messages.

(** ** What a computation writes *)

Lemma delivered_bind {A B : Type} (m : M A) (k : A → M B) self d :
  d ∈ delivered (bind m k self) →
  d ∈ delivered (m self)
  ∨ ∃ a, outcome (m self) = Returned a ∧ d ∈ delivered (k a (manager_after (m self))).
Proof.
  unfold bind, delivered, outcome, manager_after.
  destruct (m self) as [[[a|e] self1] out1]; simpl; [| by left].
  destruct (k a self1) as [[r self2] out2] eqn:Hk; simpl.
  intros Hin. apply elem_of_app in Hin as [Hin|Hin]; [by left |].
  right. exists a. by rewrite Hk.
Qed.

Lemma delivered_try {A : Type} (body : M A) (handler : Exc → M A) self d :
  d ∈ delivered (try_except body handler self) →
  d ∈ delivered (body self)
  ∨ ∃ e, outcome (body self) = Raised e
         ∧ d ∈ delivered (handler e (manager_after (body self))).
Proof.
  unfold try_except, delivered, outcome, manager_after.
  destruct (body self) as [[[a|e] self1] out1]; simpl; [by left |].
  destruct (handler e self1) as [[r self2] out2] eqn:Hh; simpl.
  intros Hin. apply elem_of_app in Hin as [Hin|Hin]; [by left |].
  right. exists e. by rewrite Hh.
Qed.

Section Emission.

Variable json_loads : string → option JSON.
Variable send_json : WebSocket → JSON → option string.
Variable R : Delivery → Prop.

Lemma emits_ret {A : Type} (a : A) : emits R (ret a).
Proof. intros self d Hin. by apply elem_of_nil in Hin. Qed.

Lemma emits_raise {A : Type} (e : Exc) : emits R (raise (A := A) e).
Proof. intros self d Hin. by apply elem_of_nil in Hin. Qed.

Lemma emits_get_manager : emits R get_manager.
Proof. intros self d Hin. by apply elem_of_nil in Hin. Qed.

Lemma emits_update f : emits R (update f).
Proof. intros self d Hin. by apply elem_of_nil in Hin. Qed.

Lemma emits_py_get message key : emits R (py_get message key).
Proof. destruct message; simpl; first [apply emits_ret | apply emits_raise]. Qed.

Lemma emits_as_key room_id : emits R (as_key room_id).
Proof.
  unfold as_key. destruct (hash_key room_id); [apply emits_ret | apply emits_raise].
Qed.

Lemma emits_ws_send websocket recipient message :
  R (recipient, message) → emits R (ws_send send_json websocket recipient message).
Proof.
  intros HR self d. unfold ws_send, delivered.
  destruct (send_json websocket message); simpl; intros Hin.
  - by apply elem_of_nil in Hin.
  - by apply list_elem_of_singleton in Hin as ->.
Qed.

Lemma emits_bind {A B : Type} (m : M A) (k : A → M B) :
  emits R m → (∀ a, emits R (k a)) → emits R (bind m k).
Proof.
  intros Hm Hk self d Hin.
  apply delivered_bind in Hin as [Hin|(a & _ & Hin)];
    [by apply (Hm self) | by apply (Hk a _ _ Hin)].
Qed.

Lemma emits_try {A : Type} (body : M A) (handler : Exc → M A) :
  emits R body → (∀ e, emits R (handler e)) → emits R (try_except body handler).
Proof.
  intros Hbody Hhandler self d Hin.
  apply delivered_try in Hin as [Hin|(e & _ & Hin)];
    [by apply (Hbody self) | by apply (Hhandler e _ _ Hin)].
Qed.

Lemma emits_broadcast_to_room message room_id exclude :
  (∀ c, Some c ≠ exclude → R (c, message)) →
  emits R (broadcast_to_room send_json message room_id exclude).
Proof.
  intros HR self [c m] Hin.
  apply broadcast_to_room_delivered in Hin as (-> & _ & Hexclude & _).
  by apply HR.
Qed.

End Emission.

(** Whatever the endpoint of a connection does with one received text, the
    frames it gets accepted on that connection's own transport are replies,
    never relays. *)
Lemma receive_iteration_no_echo json_loads send_json websocket connection_id data :
  emits (λ d, d.1 = connection_id → is_relay d.2 = false)
        (receive_iteration json_loads send_json websocket connection_id data).
Proof.
  assert (Hothers : ∀ message c,
            Some c ≠ Some connection_id →
            (c, message).1 = connection_id → is_relay (c, message).2 = false).
  { intros message c Hne Heq. simpl in Heq. congruence. }
  unfold receive_iteration. apply emits_try.
  - destruct (json_loads data) as [message|]; [| apply emits_raise].
    unfold handle_message.
    repeat first
      [ apply emits_ret | apply emits_raise | apply emits_get_manager
      | apply emits_update | apply emits_py_get | apply emits_as_key
      | apply emits_ws_send; intros _; reflexivity
      | apply emits_broadcast_to_room; intros c Hc; by apply Hothers
      | apply emits_bind; [| intros ?]
      | match goal with
        | |- emits _ (if ?b then _ else _) => destruct b
        end ].
  - intros e. destruct e; apply emits_ws_send; intros _; reflexivity.
Qed.

Lemma broadcast_to_room_returns send_json message room_id exclude self :
  outcome (broadcast_to_room send_json message room_id exclude self) = Returned tt.
Proof.
  destruct (rooms self !! room_id) as [members|] eqn:Hroom.
  - by rewrite (broadcast_to_room_run _ _ _ _ _ _ Hroom).
  - by rewrite broadcast_to_room_unknown.
Qed.

Lemma broadcast_to_room_reaches send_json message room_id exclude self
    member websocket :
  member ∈ room_members self room_id →
  Some member ≠ exclude →
  active_connections self !! member = Some websocket →
  send_json websocket message = None →
  (member, message) ∈ delivered (broadcast_to_room send_json message room_id exclude self).
Proof.
  unfold room_members. intros Hmember Hexclude Hactive Hsend.
  destruct (rooms self !! room_id) as [members|] eqn:Hroom; simpl in Hmember;
    [| by apply not_elem_of_empty in Hmember].
  rewrite (broadcast_to_room_run _ _ _ _ _ _ Hroom). unfold delivered; simpl.
  apply list_elem_of_fmap. exists member. split; [reflexivity |].
  apply list_elem_of_In, filter_In. split.
  - by apply list_elem_of_In, elem_of_elements.
  - rewrite bool_decide_eq_true_2 by done. unfold accepts.
    by rewrite Hactive, Hsend.
Qed.

(** A [game_state] message whose room id is hashable: the turn of the loop is
    the broadcast, or nothing at all when the room id is falsy. *)
Lemma receive_game_state json_loads send_json websocket connection_id data
    fields room_key self :
  json_loads data = Some (JObj fields) →
  eq_str (assoc_get fields "type") "game_state" = true →
  hash_key (assoc_get fields "roomId") = Some room_key →
  receive_iteration json_loads send_json websocket connection_id data self
  = if key_truthy room_key
    then broadcast_to_room send_json (JObj fields) room_key (Some connection_id) self
    else (Returned tt, self, []).
Proof.
  intros Hloads Htype Hkey.
  rewrite (hash_key_truthy _ _ Hkey).
  destruct (truthy (assoc_get fields "roomId")) eqn:Htruthy.
  - rewrite (result_eta (broadcast_to_room _ _ _ _ _)), broadcast_to_room_returns.
    apply (receive_iteration_returned _ _ _ _ _ _ _ _ _ _ Hloads).
    rewrite (handle_game_state _ _ _ _ _ _ Htype Htruthy Hkey).
    rewrite (result_eta (broadcast_to_room _ _ _ _ _)) at 1.
    by rewrite broadcast_to_room_returns.
  - apply (receive_iteration_returned _ _ _ _ _ _ _ _ _ _ Hloads).
    assert (Hjoin : eq_str (assoc_get fields "type") "join_room" = false)
      by (by rewrite (eq_str_true _ _ Htype)).
    assert (Hleave : eq_str (assoc_get fields "type") "leave_room" = false)
      by (by rewrite (eq_str_true _ _ Htype)).
    unfold handle_message. rewrite bind_py_get, Hjoin, Hleave, Htype.
    by rewrite bind_py_get, Htruthy.
Qed.

(** C3, as stated, fails twice.  A member of the room that is not in
    [active_connections] gets no relay, although its transport would accept
    it: "c2" was dropped by a failed broadcast and its loop, still reading,
    joined "r1" again.  And a [game_state] message whose room id is falsy is
    not relayed at all, not even to a registered member of the room of that
    id. *)
Lemma game_state_skips_member :
  ¬ relayed_to_every_member
      (receive_iteration json_loads_relay all_up (Socket 1) "c1"
         (room_text "game_state" "r1") c2_rejoined)
      (JObj [("type", JStr "game_state"); ("roomId", JStr "r1")])
      "c1" c2_rejoined (KStr "r1")
  ∧ ¬ relayed_to_every_member
        (receive_iteration json_loads_relay all_up (Socket 1) "c1"
           (room_text "game_state" EmptyString) empty_named_room)
        (JObj [("type", JStr "game_state"); ("roomId", JStr EmptyString)])
        "c1" empty_named_room (KStr EmptyString).
Proof.
  split; intros Hrelayed.
  - assert (Hin : ("c2", JObj [("type", JStr "game_state"); ("roomId", JStr "r1")])
                  ∈ delivered
                      (receive_iteration json_loads_relay all_up (Socket 1) "c1"
                         (room_text "game_state" "r1") c2_rejoined)).
    { apply Hrelayed; [by vm_compute | discriminate]. }
    vm_compute in Hin. by apply elem_of_nil in Hin.
  - assert (Hin : ("c2", JObj [("type", JStr "game_state");
                               ("roomId", JStr EmptyString)])
                  ∈ delivered
                      (receive_iteration json_loads_relay all_up (Socket 1) "c1"
                         (room_text "game_state" EmptyString) empty_named_room)).
    { apply Hrelayed; [by vm_compute | discriminate]. }
    vm_compute in Hin. by apply elem_of_nil in Hin.
Qed.

(** C3, amended: a [game_state] message with a truthy room id is relayed as
    it came in, still tagged ["game_state"], to every member of the room it
    names that is in [active_connections] (and whose transport accepts the
    frame), the sender excepted, and to nobody else; and whatever text a
    connection sends, no [game_state], [player_joined] or [player_left] frame
    ever comes back on its own transport. *)
Theorem game_state_relayed_to_registered
    (json_loads : string → option JSON)
    (send_json : WebSocket → JSON → option string)
    (websocket : WebSocket) (connection_id : string) (data : string)
    (fields : list (string * JSON)) (room_key : Key)
    (self : FPSConnectionManager) :
  json_loads data = Some (JObj fields) →
  eq_str (assoc_get fields "type") "game_state" = true →
  truthy (assoc_get fields "roomId") = true →
  hash_key (assoc_get fields "roomId") = Some room_key →
  let run :=
    receive_iteration json_loads send_json websocket connection_id data self in
  outcome run = Returned tt
  ∧ (∀ member websocket',
       member ∈ room_members self room_key → member ≠ connection_id →
       active_connections self !! member = Some websocket' →
       send_json websocket' (JObj fields) = None →
       (member, JObj fields) ∈ delivered run)
  ∧ (∀ recipient m,
       (recipient, m) ∈ delivered run →
       m = JObj fields ∧ tag m = JStr "game_state"
       ∧ recipient ≠ connection_id ∧ recipient ∈ room_members self room_key
       ∧ is_Some (active_connections self !! recipient))
  ∧ (∀ data' self' m,
       (connection_id, m) ∈ delivered
         (receive_iteration json_loads send_json websocket connection_id data' self') →
       is_relay m = false).
Proof.
  intros Hloads Htype Htruthy Hkey run.
  unfold run. rewrite (receive_game_state _ _ _ _ _ _ _ _ Hloads Htype Hkey).
  rewrite (hash_key_truthy _ _ Hkey), Htruthy.
  split; [apply broadcast_to_room_returns |]. split; [| split].
  - intros member websocket' Hmember Hne Hactive Hsend.
    apply (broadcast_to_room_reaches _ _ _ _ _ _ websocket'); try done.
    congruence.
  - intros recipient m Hin.
    apply broadcast_to_room_delivered in Hin as (-> & Hmember & Hexclude & Hlive).
    split; [done |]. split; [exact (eq_str_true _ _ Htype) |].
    split; [congruence |]. split; done.
  - intros data' self' m Hin.
    by apply (receive_iteration_no_echo _ _ _ _ _ _ _ Hin).
Qed.

Lemma game_state_relayed_to_registered_witness :
  let run := receive_iteration json_loads_sample all_up (Socket 1) "c1"
               (room_text "game_state" "r1") three_in_room in
  outcome run = Returned tt
  ∧ ("c2", JObj [("type", JStr "game_state"); ("roomId", JStr "r1")])
      ∈ delivered run
  ∧ ("c3", JObj [("type", JStr "game_state"); ("roomId", JStr "r1")])
      ∈ delivered run.
Proof.
  pose proof (game_state_relayed_to_registered json_loads_sample all_up
                (Socket 1) "c1" (room_text "game_state" "r1")
                [("type", JStr "game_state"); ("roomId", JStr "r1")]
                (KStr "r1") three_in_room) as Hthm.
  destruct Hthm as (Hreturned & Hrelay & _).
  - reflexivity.
  - reflexivity.
  - reflexivity.
  - reflexivity.
  - split; [exact Hreturned |]. split.
    + apply (Hrelay "c2" (Socket 2)); [| discriminate | reflexivity | reflexivity].
      vm_compute. reflexivity.
    + apply (Hrelay "c3" (Socket 3)); [| discriminate | reflexivity | reflexivity].
      vm_compute. reflexivity.
Defined.

(** ** Texts the endpoint has no branch for *)

(** A decoded value that is not a dictionary has no [get]: the
    [AttributeError] is caught by the inner [except Exception] and reported to
    the sender. *)
Lemma receive_non_object json_loads send_json websocket connection_id data
    message self :
  json_loads data = Some message →
  (∀ fields, message ≠ JObj fields) →
  send_json websocket
    (error_msg ("'" +:+ type_name message +:+ "' object has no attribute 'get'"))
    = None →
  receive_iteration json_loads send_json websocket connection_id data self
  = (Returned tt, self,
     [(connection_id,
       error_msg ("'" +:+ type_name message +:+ "' object has no attribute 'get'"))]).
Proof.
  intros Hloads Hshape Hsend. unfold receive_iteration, try_except.
  rewrite Hloads. unfold handle_message.
  destruct message as [| | | | |fields]; try (by destruct (Hshape fields));
    simpl; unfold ws_send; simpl in Hsend; by rewrite Hsend.
Qed.

(** C7, as stated, fails: the text [[]] is well-formed JSON without a [type]
    field, and the endpoint answers it with an [error] frame. *)
Lemma non_object_text_answered :
  json_loads_sample "[]" = Some (JArr [])
  ∧ recognized (tag (JArr [])) = false
  ∧ ¬ silently_ignored json_loads_sample all_up (Socket 1) "c1" "[]"
        joined_with_player.
Proof.
  split; [reflexivity |]. split; [reflexivity |].
  unfold silently_ignored. intros Hignored.
  apply (f_equal delivered) in Hignored. vm_compute in Hignored.
  discriminate Hignored.
Qed.

(** C7, amended: a text that decodes to a JSON object whose [type] is missing
    or is none of the four the endpoint knows is passed over in silence: no
    change to the manager, no reply (no [error] frame either), no exception;
    the connection stays in its loop, and a [ping] that follows is answered
    with [pong]. *)
Theorem unrecognized_type_ignored
    (json_loads : string → option JSON)
    (send_json : WebSocket → JSON → option string)
    (websocket : WebSocket) (connection_id : string) (data : string)
    (fields : list (string * JSON)) (self : FPSConnectionManager) :
  json_loads data = Some (JObj fields) →
  recognized (assoc_get fields "type") = false →
  silently_ignored json_loads send_json websocket connection_id data self
  ∧ serve json_loads send_json websocket connection_id [Text data] self
    = (Returned Open, self, [])
  ∧ (∀ ping_data ping_fields,
       json_loads ping_data = Some (JObj ping_fields) →
       eq_str (assoc_get ping_fields "type") "ping" = true →
       send_json websocket pong_msg = None →
       serve json_loads send_json websocket connection_id
             [Text data; Text ping_data] self
       = (Returned Open, self, [(connection_id, pong_msg)])).
Proof.
  intros Hloads Htype.
  assert (Hignored :
            receive_iteration json_loads send_json websocket connection_id data self
            = (Returned tt, self, [])).
  { apply (receive_iteration_returned _ _ _ _ _ _ _ _ _ _ Hloads).
    by apply handle_unrecognized. }
  split; [exact Hignored |].
  split; [by rewrite (serve_cons_returned _ _ _ _ _ _ _ _ _ Hignored) |].
  intros ping_data ping_fields Hping_loads Hping Hsend.
  assert (Hpong :
            receive_iteration json_loads send_json websocket connection_id
                              ping_data self
            = (Returned tt, self, [(connection_id, pong_msg)])).
  { apply (receive_iteration_returned _ _ _ _ _ _ _ _ _ _ Hping_loads).
    rewrite (handle_ping _ _ _ _ _ Hping). unfold ws_send. by rewrite Hsend. }
  rewrite (serve_cons_returned _ _ _ _ _ _ _ _ _ Hignored).
  by rewrite (serve_cons_returned _ _ _ _ _ _ _ _ _ Hpong).
Qed.

Lemma unrecognized_type_ignored_witness :
  silently_ignored json_loads_sample all_up (Socket 1) "c1"
                   (tagged_text "frobnicate") joined_with_player
  ∧ serve json_loads_sample all_up (Socket 1) "c1"
          [Text (tagged_text "frobnicate"); Text (tagged_text "ping")]
          joined_with_player
    = (Returned Open, joined_with_player, [("c1", pong_msg)]).
Proof.
  pose proof (unrecognized_type_ignored json_loads_sample all_up (Socket 1) "c1"
                (tagged_text "frobnicate") [("type", JStr "frobnicate")]
                joined_with_player) as Hthm.
  destruct Hthm as (Hignored & _ & Hping); [reflexivity | reflexivity |].
  split; [exact Hignored |].
  apply (Hping (tagged_text "ping") [("type", JStr "ping")]); reflexivity.
Defined.

(** C8: a text that is not JSON is answered, on the transport of the
    connection that sent it, with the frame
    [{"type": "error", "message": "Invalid JSON format"}], a frame of type
    ["error"] that carries a message string; the manager is left as it was,
    and the connection stays in its loop and goes on with the texts that
    follow.  (The reply presupposes that the sender's transport accepts the
    frame.) *)
Theorem malformed_text_reported
    (json_loads : string → option JSON)
    (send_json : WebSocket → JSON → option string)
    (websocket : WebSocket) (connection_id : string) (data : string)
    (self : FPSConnectionManager) :
  let reply :=
    JObj [("type", JStr "error"); ("message", JStr "Invalid JSON format")] in
  json_loads data = None →
  send_json websocket reply = None →
  receive_iteration json_loads send_json websocket connection_id data self
    = (Returned tt, self, [(connection_id, reply)])
  ∧ (∀ recipient frame,
       (recipient, frame)
         ∈ delivered (receive_iteration json_loads send_json websocket
                        connection_id data self) →
       recipient = connection_id
       ∧ tag frame = JStr "error"
       ∧ ∃ fields text, frame = JObj fields
                        ∧ assoc_get fields "message" = JStr text)
  ∧ serve json_loads send_json websocket connection_id [Text data] self
    = (Returned Open, self, [(connection_id, reply)])
  ∧ (∀ rest,
       let later := serve json_loads send_json websocket connection_id rest self in
       serve json_loads send_json websocket connection_id (Text data :: rest) self
       = (outcome later, manager_after later,
          (connection_id, reply) :: delivered later)).
Proof.
  intros reply Hloads Hsend.
  assert (Hrun :
            receive_iteration json_loads send_json websocket connection_id data self
            = (Returned tt, self, [(connection_id, reply)])).
  { unfold receive_iteration, try_except. rewrite Hloads. simpl.
    unfold ws_send. fold reply.
    change (error_msg "Invalid JSON format") with reply. by rewrite Hsend. }
  split; [exact Hrun |]. split.
  { intros recipient frame Hin. rewrite Hrun in Hin.
    apply list_elem_of_singleton in Hin. inversion Hin; subst.
    split; [reflexivity |]. split; [reflexivity |].
    by eexists _, "Invalid JSON format". }
  split; [by rewrite (serve_cons_returned _ _ _ _ _ _ _ _ _ Hrun) |].
  intros rest later. by rewrite (serve_cons_returned _ _ _ _ _ _ _ _ _ Hrun).
Qed.

Lemma malformed_text_reported_witness :
  receive_iteration json_loads_sample all_up (Socket 1) "c1" "{not json"
                    joined_with_player
    = (Returned tt, joined_with_player,
       [("c1", JObj [("type", JStr "error");
                     ("message", JStr "Invalid JSON format")])])
  ∧ serve json_loads_sample all_up (Socket 1) "c1"
          [Text "{not json"; Text (tagged_text "ping")] joined_with_player
    = (Returned Open, joined_with_player,
       [("c1", JObj [("type", JStr "error");
                     ("message", JStr "Invalid JSON format")]);
        ("c1", JObj [("type", JStr "pong")])]).
Proof.
  pose proof (malformed_text_reported json_loads_sample all_up (Socket 1) "c1"
                "{not json" joined_with_player) as Hthm.
  destruct Hthm as (Hrun & _ & _ & Hrest); [reflexivity | reflexivity |].
  split; [exact Hrun |].
  rewrite (Hrest [Text (tagged_text "ping")]). reflexivity.
Defined.

(** ** Messages about a room the sender is not in *)




(** ** What the endpoint maintains *)

Lemma connection_players_leave_room c room_id self :
  connection_players (leave_room c room_id self) = connection_players self.
Proof. unfold leave_room. by destruct (rooms self !! room_id). Qed.

(** However the endpoint is driven, every member of a room has a player id
    on record, in every state the endpoint reaches. *)
Lemma endpoint_members_recorded json_loads send_json actions self :
  Forall through_endpoint actions →
  members_recorded self →
  members_recorded (run_actions json_loads send_json actions self).
Proof.
  intros Hactions.
  apply (run_actions_keep json_loads send_json members_recorded (λ _, True) False);
    [| | | | | exact Hactions].
  - intros c' s Hrec room_id c. rewrite room_members_disconnect, disconnect_players.
    destruct (connection_players s !! c') eqn:Hplayer.
    + rewrite elem_of_difference, elem_of_singleton. intros [Hin Hne].
      rewrite lookup_delete_ne by done. by apply (Hrec room_id).
    + intros Hin. specialize (Hrec room_id c Hin).
      rewrite lookup_delete_ne; [done |]. intros ->.
      rewrite Hplayer in Hrec. by destruct Hrec.
  - intros c' r s Hrec room_id c.
    rewrite room_members_leave, connection_players_leave_room.
    destruct (decide (r = room_id)) as [->|]; [| by apply Hrec].
    rewrite elem_of_difference. intros [Hin _]. by apply (Hrec room_id).
  - intros c' r p s Hrec _ _ room_id c.
    change (room_members (set_player c' p (join_room c' r s)) room_id)
      with (room_members (join_room c' r s) room_id).
    change (connection_players (set_player c' p (join_room c' r s)))
      with (<[c' := p]> (connection_players s)).
    rewrite room_members_join. intros Hin.
    destruct (decide (c' = c)) as [->|Hne]; [by rewrite lookup_insert_eq |].
    rewrite lookup_insert_ne by done.
    destruct (decide (r = room_id)) as [->|]; [| by apply (Hrec room_id)].
    apply elem_of_union in Hin as [Hin|Hin]; [by apply (Hrec room_id) |].
    apply elem_of_singleton in Hin. congruence.
  - intros ws c' s _ Hrec. exact Hrec.
  - intros c' r s [].
Qed.

(** However the endpoint is driven, no room gets a falsy id. *)
Lemma endpoint_rooms_truthy json_loads send_json actions self :
  Forall through_endpoint actions →
  rooms_truthy self →
  rooms_truthy (run_actions json_loads send_json actions self).
Proof.
  intros Hactions.
  apply (run_actions_keep json_loads send_json rooms_truthy (λ _, True) False);
    [| | | | | exact Hactions].
  - intros c' s Htruthy room_id Hfalsy. unfold disconnect.
    destruct (connection_players s !! c'); simpl; [| by apply Htruthy].
    by rewrite lookup_fmap, (Htruthy room_id Hfalsy).
  - intros c' r s Htruthy room_id Hfalsy. rewrite rooms_leave_lookup.
    destruct (decide (r = room_id)) as [->|]; [| by apply Htruthy].
    by rewrite (Htruthy room_id Hfalsy).
  - intros c' r p s Htruthy Hkey _ room_id Hfalsy.
    change (rooms (set_player c' p (join_room c' r s)))
      with (rooms (join_room c' r s)).
    rewrite rooms_join_lookup.
    destruct (decide (r = room_id)) as [->|]; [congruence | by apply Htruthy].
  - intros ws c' s _ Htruthy. exact Htruthy.
  - intros c' r s [].
Qed.

Lemma init_members_recorded : members_recorded init.
Proof. intros room_id c Hin. vm_compute in Hin. discriminate Hin. Qed.

Lemma init_rooms_truthy : rooms_truthy init.
Proof. intros room_id _. apply lookup_empty. Qed.

Lemma rooms_truthy_no_members self room_id :
  rooms_truthy self → key_truthy room_id = false → room_members self room_id = ∅.
Proof. intros Htruthy Hfalsy. unfold room_members. by rewrite (Htruthy _ Hfalsy). Qed.

(** * Further properties of the manager *)

(** ** [send_personal_message] *)

(** [send_personal_message] never raises.  To an id that is not registered it
    does nothing; when the transport accepts the frame the manager is left
    as it was; when the transport raises, nothing is delivered and the
    connection is disconnected, so that it is registered no more. *)
Theorem send_personal_message_cases
    (send_json : WebSocket → JSON → option string) (message : JSON)
    (connection_id : string) (self : FPSConnectionManager) :
  let run := send_personal_message send_json message connection_id self in
  outcome run = Returned tt
  ∧ (active_connections self !! connection_id = None →
     run = (Returned tt, self, []))
  ∧ (∀ websocket,
       active_connections self !! connection_id = Some websocket →
       send_json websocket message = None →
       run = (Returned tt, self, [(connection_id, message)]))
  ∧ (∀ websocket text,
       active_connections self !! connection_id = Some websocket →
       send_json websocket message = Some text →
       run = (Returned tt, disconnect connection_id self, [])
       ∧ active_connections (manager_after run) !! connection_id = None).
Proof.
  intros run. unfold run, send_personal_message. rewrite bind_get_manager.
  destruct (active_connections self !! connection_id) as [websocket|] eqn:Hactive.
  - unfold try_except, ws_send, update.
    destruct (send_json websocket message) as [text|] eqn:Hsend; simpl.
    + split; [reflexivity |]. split; [discriminate |].
      split; [intros ws' Heq Hnone; inversion Heq; subst; congruence |].
      intros ws' text' _ _. split; [reflexivity |].
      unfold manager_after; simpl. rewrite disconnect_active.
      apply lookup_delete_eq.
    + split; [reflexivity |]. split; [discriminate |].
      split; [reflexivity |].
      intros ws' text' Heq Hsome. inversion Heq; subst. congruence.
  - split; [reflexivity |]. split; [reflexivity |].
    split; [discriminate | discriminate].
Qed.

Lemma send_personal_message_cases_witness :
  send_personal_message c2_down pong_msg "c9" three_in_room
    = (Returned tt, three_in_room, [])
  ∧ send_personal_message c2_down pong_msg "c1" three_in_room
    = (Returned tt, three_in_room, [("c1", pong_msg)])
  ∧ send_personal_message c2_down pong_msg "c2" three_in_room
    = (Returned tt, disconnect "c2" three_in_room, []).
Proof.
  split; [| split].
  - apply (send_personal_message_cases c2_down pong_msg "c9" three_in_room).
    reflexivity.
  - apply (send_personal_message_cases c2_down pong_msg "c1" three_in_room
             ) with (websocket := Socket 1); reflexivity.
  - apply (send_personal_message_cases c2_down pong_msg "c2" three_in_room
             ) with (websocket := Socket 2) (text := "connection closed");
      reflexivity.
Defined.

(** ** [broadcast_to_room] *)

Lemma recipients_of_tagged (message : JSON) (ids : list string) :
  fst <$> ((λ c, (c, message)) <$> ids) = ids.
Proof.
  induction ids as [|c ids IH]; [done |].
  rewrite !fmap_cons. simpl. by rewrite IH.
Qed.

(** One broadcast writes to a connection at most once. *)
Theorem broadcast_at_most_once
    (send_json : WebSocket → JSON → option string) (message : JSON)
    (room_id : Key) (exclude : option string) (self : FPSConnectionManager) :
  NoDup (fst <$> delivered (broadcast_to_room send_json message room_id exclude self)).
Proof.
  destruct (rooms self !! room_id) as [members|] eqn:Hroom.
  - rewrite (broadcast_to_room_run _ _ _ _ _ _ Hroom). unfold delivered; simpl.
    rewrite recipients_of_tagged.
    unfold reached.
    apply NoDup_ListNoDup, List.NoDup_filter, NoDup_ListNoDup, NoDup_elements.
  - rewrite (broadcast_to_room_unknown _ _ _ _ _ Hroom). apply NoDup_nil_2.
Qed.

Lemma disconnect_all_active_lookup (ids : list string) self c :
  active_connections (foldl (λ acc c', disconnect c' acc) self ids) !! c
  = if decide (c ∈ ids) then None else active_connections self !! c.
Proof.
  destruct (decide (c ∈ ids)) as [Hin|Hnot].
  - apply disconnect_all_active. by right.
  - revert self. induction ids as [|c' ids IH]; intros self; simpl; [done |].
    apply not_elem_of_cons in Hnot as [Hne Hnot].
    rewrite (IH Hnot), disconnect_active. by rewrite lookup_delete_ne.
Qed.

Lemma disconnect_all_players_lookup (ids : list string) self c :
  connection_players (foldl (λ acc c', disconnect c' acc) self ids) !! c
  = if decide (c ∈ ids) then None else connection_players self !! c.
Proof.
  revert self. induction ids as [|c' ids IH]; intros self; cbn [foldl].
  - destruct (decide (c ∈ [])) as [Hin|_]; [by apply elem_of_nil in Hin | done].
  - rewrite IH, disconnect_players.
    destruct (decide (c ∈ ids)) as [Hin|Hnot];
      destruct (decide (c ∈ c' :: ids)) as [Hin'|Hnot']; try done.
    + destruct Hnot'. by right.
    + apply elem_of_cons in Hin' as [->|Hin']; [apply lookup_delete_eq | done].
    + apply not_elem_of_cons in Hnot' as [Hne _]. by rewrite lookup_delete_ne.
Qed.

Lemma disconnect_all_members_other (ids : list string) self c room_id :
  c ∉ ids →
  c ∈ room_members (foldl (λ acc c', disconnect c' acc) self ids) room_id
  ↔ c ∈ room_members self room_id.
Proof.
  revert self. induction ids as [|c' ids IH]; intros self Hnot; simpl; [done |].
  apply not_elem_of_cons in Hnot as [Hne Hnot].
  rewrite (IH _ Hnot), room_members_disconnect.
  destruct (connection_players self !! c'); [| done].
  rewrite elem_of_difference, elem_of_singleton. tauto.
Qed.

Lemma disconnect_all_rooms_keys (ids : list string) self room_id :
  is_Some (rooms (foldl (λ acc c', disconnect c' acc) self ids) !! room_id)
  ↔ is_Some (rooms self !! room_id).
Proof.
  revert self. induction ids as [|c' ids IH]; intros self; simpl; [done |].
  rewrite IH. unfold disconnect.
  destruct (connection_players self !! c'); simpl; [| done].
  rewrite lookup_fmap. by rewrite fmap_is_Some.
Qed.

(** A broadcast changes the manager only for the members whose transport
    raised: those are out of [active_connections] and [connection_players]
    afterwards, while every other connection keeps its transport entry, its
    player id and its room memberships, and the set of room ids is the same. *)
Theorem broadcast_touches_only_failures
    (send_json : WebSocket → JSON → option string) (message : JSON)
    (room_id : Key) (exclude : option string) (self : FPSConnectionManager)
    (c : string) :
  let after :=
    manager_after (broadcast_to_room send_json message room_id exclude self) in
  (c ∈ room_members self room_id → Some c ≠ exclude →
   refuses send_json self message c = true →
   active_connections after !! c = None ∧ connection_players after !! c = None)
  ∧ (c ∉ room_members self room_id ∨ Some c = exclude
     ∨ refuses send_json self message c = false →
     active_connections after !! c = active_connections self !! c
     ∧ connection_players after !! c = connection_players self !! c
     ∧ ∀ room_id', c ∈ room_members after room_id' ↔ c ∈ room_members self room_id')
  ∧ (∀ room_id', is_Some (rooms after !! room_id') ↔ is_Some (rooms self !! room_id')).
Proof.
  intros after. unfold after, room_members at 1 2.
  destruct (rooms self !! room_id) as [members|] eqn:Hroom; simpl.
  - rewrite (broadcast_to_room_run _ _ _ _ _ _ Hroom). unfold manager_after; simpl.
    assert (Hfailing : ∀ x,
              x ∈ failing send_json self message exclude (elements members)
              ↔ x ∈ members ∧ Some x ≠ exclude
                ∧ refuses send_json self message x = true).
    { intros x. unfold failing.
      rewrite list_elem_of_In, filter_In, <- list_elem_of_In, elem_of_elements.
      rewrite andb_true_iff, bool_decide_eq_true. tauto. }
    split; [| split].
    + intros Hin Hexcl Hrefuses.
      rewrite disconnect_all_active_lookup, disconnect_all_players_lookup.
      by rewrite !decide_True by (by apply Hfailing).
    + intros Hcase.
      assert (Hnot : c ∉ failing send_json self message exclude (elements members)).
      { rewrite Hfailing. intros (Hin & Hexcl & Hrefuses).
        destruct Hcase as [Hcase|[Hcase|Hcase]]; [done | done | congruence]. }
      rewrite disconnect_all_active_lookup, disconnect_all_players_lookup.
      rewrite !decide_False by done.
      split; [done |]. split; [done |].
      intros room_id'. by apply disconnect_all_members_other.
    + intros room_id'. apply disconnect_all_rooms_keys.
  - rewrite (broadcast_to_room_unknown _ _ _ _ _ Hroom). unfold manager_after; simpl.
    split; [intros Hin; by apply not_elem_of_empty in Hin |].
    split; [done | done].
Qed.

Lemma broadcast_touches_only_failures_witness :
  let after :=
    manager_after (broadcast_to_room c2_down pong_msg (KStr "r1") None
                     three_in_room) in
  (active_connections after !! "c2" = None
   ∧ connection_players after !! "c2" = None)
  ∧ active_connections after !! "c3" = Some (Socket 3)
  ∧ connection_players after !! "c3" = Some (JStr "pc").
Proof.
  split.
  - apply (broadcast_touches_only_failures c2_down pong_msg (KStr "r1") None
             three_in_room "c2"); [by vm_compute | discriminate | reflexivity].
  - pose proof (broadcast_touches_only_failures c2_down pong_msg (KStr "r1") None
                  three_in_room "c3") as (_ & Hkept & _).
    destruct Hkept as (Hactive & Hplayer & _); [right; right; reflexivity |].
    rewrite Hactive, Hplayer. split; reflexivity.
Defined.

(** ** [disconnect], [join_room], [leave_room], [connect] *)

(** [disconnect] of one connection touches no other: every other connection
    keeps its transport entry, its player id and its room memberships, and no
    room id is added or dropped. *)
Theorem disconnect_isolated (connection_id other : string)
    (self : FPSConnectionManager) :
  other ≠ connection_id →
  active_connections (disconnect connection_id self) !! other
    = active_connections self !! other
  ∧ connection_players (disconnect connection_id self) !! other
    = connection_players self !! other
  ∧ (∀ room_id, other ∈ room_members (disconnect connection_id self) room_id
                ↔ other ∈ room_members self room_id)
  ∧ (∀ room_id, is_Some (rooms (disconnect connection_id self) !! room_id)
                ↔ is_Some (rooms self !! room_id)).
Proof.
  intros Hne. rewrite disconnect_active, disconnect_players.
  rewrite !lookup_delete_ne by done.
  split; [done |]. split; [done |]. split.
  - intros room_id.
    apply (disconnect_all_members_other [connection_id] self other room_id).
    intros Hin. apply list_elem_of_singleton in Hin. congruence.
  - intros room_id. apply (disconnect_all_rooms_keys [connection_id] self room_id).
Qed.

Lemma disconnect_isolated_witness :
  active_connections (disconnect "c2" three_in_room) !! "c1" = Some (Socket 1)
  ∧ connection_players (disconnect "c2" three_in_room) !! "c1" = Some (JStr "pa").
Proof.
  pose proof (disconnect_isolated "c2" "c1" three_in_room) as (Hactive & Hplayer & _);
    [discriminate |].
  rewrite Hactive, Hplayer. split; reflexivity.
Defined.

Lemma join_then_leave (connection_id : string) (room_id : Key)
    (self : FPSConnectionManager) (members : gset string) :
  rooms self !! room_id = Some members →
  connection_id ∉ members →
  leave_room connection_id room_id (join_room connection_id room_id self) = self.
Proof.
  intros Hroom Hmember. apply manager_eq.
  - unfold leave_room. by destruct (rooms (join_room _ _ _) !! room_id).
  - unfold leave_room. by destruct (rooms (join_room _ _ _) !! room_id).
  - apply map_eq. intros other. rewrite rooms_leave_lookup.
    destruct (decide (room_id = other)) as [<-|Hne];
      [| by rewrite rooms_join_lookup, decide_False].
    rewrite rooms_join_lookup, decide_True by done.
    unfold room_members. rewrite Hroom. simpl.
    f_equal. apply leibniz_equiv. intros x.
    rewrite elem_of_difference, elem_of_union, elem_of_singleton.
    split; [intros [[Hx|Hx] Hne]; [done | congruence] |].
    intros Hx. split; [by left | congruence].
Qed.

Lemma leave_then_join (connection_id : string) (room_id : Key)
    (self : FPSConnectionManager) (members : gset string) :
  rooms self !! room_id = Some members →
  connection_id ∈ members →
  join_room connection_id room_id (leave_room connection_id room_id self) = self.
Proof.
  intros Hroom Hmember. apply manager_eq.
  - unfold join_room, leave_room; simpl. by rewrite Hroom.
  - unfold join_room, leave_room; simpl. by rewrite Hroom.
  - apply map_eq. intros other. rewrite rooms_join_lookup.
    destruct (decide (room_id = other)) as [<-|Hne].
    + rewrite room_members_leave, decide_True by done.
      unfold room_members. rewrite Hroom. simpl.
      f_equal. apply leibniz_equiv. intros x.
      rewrite elem_of_union, elem_of_difference, elem_of_singleton.
      split; [intros [[Hx _]|Hx]; [done | by subst x] |].
      intros Hx. destruct (decide (x = connection_id)); [by right | by left].
    + rewrite rooms_leave_lookup. by rewrite decide_False.
Qed.

(** For a room that exists, joining and then leaving restores the manager
    exactly when the connection was not a member (otherwise it is a member no
    more), and leaving and then joining restores it exactly when the
    connection was a member (otherwise it has become one). *)
Theorem join_leave_round_trip (connection_id : string) (room_id : Key)
    (self : FPSConnectionManager) (members : gset string) :
  rooms self !! room_id = Some members →
  (leave_room connection_id room_id (join_room connection_id room_id self) = self
   ↔ connection_id ∉ members)
  ∧ (join_room connection_id room_id (leave_room connection_id room_id self) = self
     ↔ connection_id ∈ members).
Proof.
  intros Hroom.
  assert (Hmembers : room_members self room_id = members)
    by (unfold room_members; by rewrite Hroom).
  split; split.
  - intros Hsame Hin.
    assert (Hgone : connection_id
                    ∉ room_members
                        (leave_room connection_id room_id
                           (join_room connection_id room_id self)) room_id).
    { rewrite room_members_leave, decide_True by done.
      rewrite elem_of_difference, elem_of_singleton. tauto. }
    rewrite Hsame, Hmembers in Hgone. done.
  - by apply join_then_leave.
  - intros Hsame.
    assert (Hin : connection_id
                  ∈ room_members
                      (join_room connection_id room_id
                         (leave_room connection_id room_id self)) room_id).
    { rewrite room_members_join, decide_True by done.
      apply elem_of_union. right. by apply elem_of_singleton. }
    rewrite Hsame, Hmembers in Hin. done.
  - by apply leave_then_join.
Qed.

Lemma join_leave_round_trip_witness :
  leave_room "c9" (KStr "r1") (join_room "c9" (KStr "r1") three_in_room)
    = three_in_room
  ∧ join_room "c2" (KStr "r1") (leave_room "c2" (KStr "r1") three_in_room)
    = three_in_room.
Proof.
  pose proof (join_leave_round_trip "c9" (KStr "r1") three_in_room
                {["c1"; "c2"; "c3"]}) as (Hfirst & _); [by vm_compute |].
  pose proof (join_leave_round_trip "c2" (KStr "r1") three_in_room
                {["c1"; "c2"; "c3"]}) as (_ & Hsecond); [by vm_compute |].
  split; [apply Hfirst | apply Hsecond].
  - vm_compute. intros Hin. discriminate Hin.
  - vm_compute. reflexivity.
Defined.

(** [connect] registers the transport under the id, replacing one already
    registered under it, and touches nothing else; for an id that is new to
    the manager, [disconnect] undoes it exactly. *)
Theorem connect_registers (websocket : WebSocket) (connection_id : string)
    (self : FPSConnectionManager) :
  active_connections (connect websocket connection_id self) !! connection_id
    = Some websocket
  ∧ (∀ other, other ≠ connection_id →
       active_connections (connect websocket connection_id self) !! other
       = active_connections self !! other)
  ∧ connection_players (connect websocket connection_id self)
    = connection_players self
  ∧ rooms (connect websocket connection_id self) = rooms self
  ∧ (active_connections self !! connection_id = None →
     connection_players self !! connection_id = None →
     disconnect connection_id (connect websocket connection_id self) = self).
Proof.
  split; [apply lookup_insert_eq |].
  split; [intros other Hne; by apply lookup_insert_ne |].
  split; [reflexivity |]. split; [reflexivity |].
  intros Hactive Hplayer. unfold disconnect, connect; simpl.
  rewrite lookup_insert_eq, Hplayer. apply manager_eq; simpl; try reflexivity.
  rewrite delete_insert_eq. by apply delete_id.
Qed.

Lemma connect_registers_witness :
  disconnect "c9" (connect (Socket 9) "c9" three_in_room) = three_in_room.
Proof.
  apply (connect_registers (Socket 9) "c9" three_in_room); reflexivity.
Defined.

(** * Further properties of the endpoint *)

(** ** What one connection's loop keeps for itself

    The broadcasts of the loop of a connection exclude that connection, so
    the loop disconnects others only. *)

Section OwnPreservation.

Variable json_loads : string → option JSON.
Variable send_json : WebSocket → JSON → option string.
Variable websocket : WebSocket.
Variable connection_id : string.
Variable P : FPSConnectionManager → Prop.

Hypothesis P_disconnect_others :
  ∀ c self, c ≠ connection_id → P self → P (disconnect c self).
Hypothesis P_leave_room : ∀ c room_id self, P self → P (leave_room c room_id self).
Hypothesis P_join_recorded : ∀ c room_id player_id self,
  P self → key_truthy room_id = true → truthy player_id = true →
  P (set_player c player_id (join_room c room_id self)).

Lemma P_disconnect_all_others (ids : list string) self :
  connection_id ∉ ids → P self → P (foldl (λ acc c, disconnect c acc) self ids).
Proof.
  revert self. induction ids as [|c ids IH]; intros self Hnot HP; simpl; [done |].
  apply not_elem_of_cons in Hnot as [Hne Hnot].
  apply IH; [done |]. apply P_disconnect_others; [congruence | done].
Qed.

Lemma own_broadcast_to_room message room_id :
  preserves P (broadcast_to_room send_json message room_id (Some connection_id)).
Proof.
  intros self HP.
  destruct (rooms self !! room_id) as [members|] eqn:Hroom.
  - rewrite (broadcast_to_room_run _ _ _ _ _ _ Hroom). unfold manager_after; simpl.
    apply P_disconnect_all_others; [| done].
    unfold failing. rewrite list_elem_of_In, filter_In.
    intros [_ Hcond]. apply andb_prop in Hcond as [Hexcl _].
    by apply bool_decide_eq_true in Hexcl.
  - by rewrite broadcast_to_room_unknown.
Qed.

Lemma own_handle_message message :
  preserves P (handle_message send_json websocket connection_id message).
Proof.
  unfold handle_message.
  apply preserves_bind; [apply preserves_py_get | intros message_type].
  destruct (eq_str message_type "join_room").
  { apply preserves_bind; [apply preserves_py_get | intros room_id].
    apply preserves_bind; [apply preserves_py_get | intros player_id].
    destruct (truthy room_id && truthy player_id) eqn:Hboth;
      [| apply preserves_ret].
    apply andb_prop in Hboth as [Hroom Hplayer].
    apply preserves_as_key_bind. intros room_key Hkey.
    apply preserves_update_twice.
    - intros self HP. apply P_join_recorded; [done | | done].
      by rewrite (hash_key_truthy _ _ Hkey).
    - apply preserves_bind; [apply preserves_ws_send | intros _].
      apply own_broadcast_to_room. }
  destruct (eq_str message_type "leave_room").
  { apply preserves_bind; [apply preserves_py_get | intros room_id].
    apply preserves_bind; [apply preserves_get_manager | intros self0].
    destruct (truthy room_id); [| apply preserves_ret].
    apply preserves_as_key_bind. intros room_key Hkey.
    apply preserves_bind;
      [apply preserves_update; intros; by apply P_leave_room | intros _].
    apply preserves_bind; [apply preserves_ws_send | intros _].
    destruct (truthy _); [apply own_broadcast_to_room | apply preserves_ret]. }
  destruct (eq_str message_type "game_state").
  { apply preserves_bind; [apply preserves_py_get | intros room_id].
    destruct (truthy room_id); [| apply preserves_ret].
    apply preserves_as_key_bind. intros room_key Hkey.
    apply own_broadcast_to_room. }
  destruct (eq_str message_type "ping");
    [apply preserves_ws_send | apply preserves_ret].
Qed.

Lemma own_receive_iteration data :
  preserves P (receive_iteration json_loads send_json websocket connection_id data).
Proof.
  unfold receive_iteration. apply preserves_try.
  - destruct (json_loads data); [apply own_handle_message | apply preserves_raise].
  - intros []; apply preserves_ws_send.
Qed.

Lemma own_receive_loop inbound :
  preserves P (receive_loop json_loads send_json websocket connection_id inbound).
Proof.
  induction inbound as [|[data|] inbound IH]; simpl;
    [apply preserves_ret | | apply preserves_raise].
  apply preserves_bind; [apply own_receive_iteration | intros _; exact IH].
Qed.

End OwnPreservation.

Lemma members_recorded_disconnect c self :
  members_recorded self → members_recorded (disconnect c self).
Proof.
  intros Hrec room_id x. rewrite room_members_disconnect, disconnect_players.
  destruct (connection_players self !! c) eqn:Hplayer.
  - rewrite elem_of_difference, elem_of_singleton. intros [Hin Hne].
    rewrite lookup_delete_ne by done. by apply (Hrec room_id).
  - intros Hin. specialize (Hrec room_id x Hin).
    rewrite lookup_delete_ne; [done |]. intros ->.
    rewrite Hplayer in Hrec. by destruct Hrec.
Qed.

Lemma members_recorded_leave_room c room_id self :
  members_recorded self → members_recorded (leave_room c room_id self).
Proof.
  intros Hrec r x. rewrite room_members_leave, connection_players_leave_room.
  destruct (decide (room_id = r)) as [->|]; [| by apply Hrec].
  rewrite elem_of_difference. intros [Hin _]. by apply (Hrec r).
Qed.

Lemma members_recorded_join c room_id player_id self :
  members_recorded self →
  members_recorded (set_player c player_id (join_room c room_id self)).
Proof.
  intros Hrec r x.
  change (room_members (set_player c player_id (join_room c room_id self)) r)
    with (room_members (join_room c room_id self) r).
  change (connection_players (set_player c player_id (join_room c room_id self)))
    with (<[c := player_id]> (connection_players self)).
  rewrite room_members_join. intros Hin.
  destruct (decide (c = x)) as [->|Hne]; [by rewrite lookup_insert_eq |].
  rewrite lookup_insert_ne by done.
  destruct (decide (room_id = r)) as [->|]; [| by apply (Hrec r)].
  apply elem_of_union in Hin as [Hin|Hin]; [by apply (Hrec r) |].
  apply elem_of_singleton in Hin. congruence.
Qed.

Lemma guarded_cases connection_id (body : M unit) self :
  (outcome (body self) = Returned tt
   ∧ outcome (guarded connection_id body self) = Returned Open
   ∧ manager_after (guarded connection_id body self) = manager_after (body self)
   ∧ delivered (guarded connection_id body self) = delivered (body self))
  ∨ (∃ e, outcome (body self) = Raised e
          ∧ outcome (guarded connection_id body self) = Returned Closed
          ∧ manager_after (guarded connection_id body self)
            = disconnect connection_id (manager_after (body self))
          ∧ delivered (guarded connection_id body self) = delivered (body self)).
Proof.
  unfold guarded, try_except, bind, outcome, manager_after, delivered.
  destruct (body self) as [[[[]|e] self1] out1]; simpl.
  - left. by rewrite app_nil_r.
  - right. exists e. by rewrite app_nil_r.
Qed.

Lemma receive_loop_disconnect json_loads send_json websocket connection_id
    inbound self :
  Disconnect ∈ inbound →
  ∃ e, outcome (receive_loop json_loads send_json websocket connection_id
                  inbound self) = Raised e.
Proof.
  revert self. induction inbound as [|[data|] inbound IH]; intros self Hin.
  - by apply elem_of_nil in Hin.
  - apply elem_of_cons in Hin as [Heq|Hin]; [discriminate |].
    cbn [receive_loop]. unfold bind, outcome.
    destruct (receive_iteration _ _ _ _ data self) as [[[[]|e] self1] out1].
    + destruct (IH self1 Hin) as [e He]. unfold outcome in He.
      destruct (receive_loop _ _ _ _ inbound self1) as [[r self2] out2].
      simpl in *. by exists e.
    + by exists e.
  - by exists WebSocketDisconnect.
Qed.

Lemma outcome_bind {A B : Type} (m : M A) (k : A → M B) self :
  outcome (bind m k self)
  = match outcome (m self) with
    | Returned a => outcome (k a (manager_after (m self)))
    | Raised e => Raised e
    end.
Proof.
  unfold bind, outcome, manager_after.
  destruct (m self) as [[[a|e] self1] out1]; simpl; [| reflexivity].
  by destruct (k a self1) as [[r self2] out2].
Qed.

Lemma active_connections_leave_room c room_id self :
  active_connections (leave_room c room_id self) = active_connections self.
Proof. unfold leave_room. by destruct (rooms self !! room_id). Qed.

Lemma members_recorded_connect websocket c self :
  members_recorded self → members_recorded (connect websocket c self).
Proof. intros Hrec. exact Hrec. Qed.

Lemma three_in_room_recorded : members_recorded three_in_room.
Proof.
  unfold three_in_room.
  repeat (apply members_recorded_join; apply members_recorded_connect).
  apply init_members_recorded.
Qed.

(** ** The life of one connection *)

(** No exception leaves [fps_websocket_endpoint] once the handshake is done:
    it ends with the connection either still in its loop or closed.  While
    the loop runs the connection stays registered with its own transport,
    whatever it received.  Once closed, the connection is in neither
    [active_connections] nor [connection_players], and, if every room member
    had a player id on record before, it is a member of no room.  A
    [WebSocketDisconnect] from [receive_text] always closes it. *)
Theorem endpoint_lifecycle
    (json_loads : string → option JSON)
    (send_json : WebSocket → JSON → option string)
    (websocket : WebSocket) (connection_id : string) (inbound : list Recv)
    (self : FPSConnectionManager) :
  let run := fps_websocket_endpoint json_loads send_json websocket connection_id
               inbound self in
  ∃ status,
    outcome run = Returned status
    ∧ (status = Open →
       active_connections (manager_after run) !! connection_id = Some websocket)
    ∧ (status = Closed →
       active_connections (manager_after run) !! connection_id = None
       ∧ connection_players (manager_after run) !! connection_id = None)
    ∧ (status = Closed → members_recorded self →
       ∀ room_id, connection_id ∉ room_members (manager_after run) room_id)
    ∧ (Disconnect ∈ inbound → status = Closed).
Proof.
  intros run. unfold run, fps_websocket_endpoint. rewrite bind_update.
  set (start := connect websocket connection_id self).
  set (body := bind (ws_send send_json websocket connection_id
                       (connected_msg connection_id))
                    (λ _, receive_loop json_loads send_json websocket
                            connection_id inbound)).
  destruct (guarded_cases connection_id body start)
    as [(Hbody & Hout & Hafter & _)|(e & Hbody & Hout & Hafter & _)].
  - exists Open. split; [exact Hout |]. rewrite Hafter.
    split; [| split; [discriminate | split; [discriminate |]]].
    + intros _.
      assert (Hkeeps : preserves
                (λ s, active_connections s !! connection_id = Some websocket) body).
      { apply preserves_bind; [apply preserves_ws_send | intros _].
        apply (own_receive_loop json_loads send_json websocket connection_id).
        - intros c s Hne Hreg. rewrite disconnect_active.
          by rewrite lookup_delete_ne.
        - intros c r s Hreg. by rewrite active_connections_leave_room.
        - intros c r p s Hreg _ _. exact Hreg. }
      apply Hkeeps. apply lookup_insert_eq.
    + intros Hin. unfold body in Hbody. rewrite outcome_bind in Hbody.
      destruct (outcome (ws_send _ _ _ _ start)); [| discriminate].
      destruct (receive_loop_disconnect json_loads send_json websocket
                  connection_id inbound
                  (manager_after (ws_send send_json websocket connection_id
                                    (connected_msg connection_id) start)) Hin)
        as [e He].
      rewrite He in Hbody. discriminate.
  - exists Closed. split; [exact Hout |]. rewrite Hafter.
    split; [discriminate |].
    split; [| split; [| done]].
    + intros _. rewrite disconnect_active, disconnect_players.
      split; apply lookup_delete_eq.
    + intros _ Hrec room_id.
      assert (Hkeeps : preserves members_recorded body).
      { apply preserves_bind; [apply preserves_ws_send | intros _].
        apply preserves_receive_loop.
        - intros; by apply members_recorded_disconnect.
        - intros; by apply members_recorded_leave_room.
        - intros; by apply members_recorded_join. }
      assert (Hrec' : members_recorded (manager_after (body start)))
        by (apply Hkeeps; exact Hrec).
      rewrite room_members_disconnect.
      destruct (connection_players (manager_after (body start)) !! connection_id)
        eqn:Hplayer.
      * rewrite elem_of_difference, elem_of_singleton. tauto.
      * intros Hin. destruct (Hrec' room_id connection_id Hin) as [p Hp].
        congruence.
Qed.

Lemma endpoint_lifecycle_witness :
  let run := fps_websocket_endpoint json_loads_sample all_up (Socket 9) "c9"
               [Text (tagged_text "ping"); Disconnect] three_in_room in
  ∃ status,
    outcome run = Returned status
    ∧ status = Closed
    ∧ active_connections (manager_after run) !! "c9" = None
    ∧ ∀ room_id, "c9" ∉ room_members (manager_after run) room_id.
Proof.
  destruct (endpoint_lifecycle json_loads_sample all_up (Socket 9) "c9"
              [Text (tagged_text "ping"); Disconnect] three_in_room)
    as (status & Hout & _ & Hclosed & Hpurged & Hdisconnect).
  assert (Hstatus : status = Closed).
  { apply Hdisconnect. apply elem_of_cons. right. apply elem_of_cons. by left. }
  exists status. split; [exact Hout |]. split; [exact Hstatus |].
  split; [by apply Hclosed |].
  apply Hpurged; [exact Hstatus | exact three_in_room_recorded].
Defined.

(** If the transport refuses the [connected] frame, the endpoint reads no
    message at all: it disconnects the connection it has just registered and
    is closed, with nothing delivered. *)
Theorem endpoint_ack_refused
    (json_loads : string → option JSON)
    (send_json : WebSocket → JSON → option string)
    (websocket : WebSocket) (connection_id : string) (inbound : list Recv)
    (self : FPSConnectionManager) (text : string) :
  send_json websocket (connected_msg connection_id) = Some text →
  fps_websocket_endpoint json_loads send_json websocket connection_id inbound self
  = (Returned Closed,
     disconnect connection_id (connect websocket connection_id self), []).
Proof.
  intros Hsend. unfold fps_websocket_endpoint. rewrite bind_update.
  unfold guarded, try_except, bind, ws_send. by rewrite Hsend.
Qed.

Lemma endpoint_ack_refused_witness :
  fps_websocket_endpoint json_loads_sample all_down (Socket 9) "c9"
    [Text (tagged_text "ping")] three_in_room
  = (Returned Closed,
     disconnect "c9" (connect (Socket 9) "c9" three_in_room), []).
Proof.
  apply (endpoint_ack_refused json_loads_sample all_down (Socket 9) "c9"
           [Text (tagged_text "ping")] three_in_room "connection closed").
  reflexivity.
Defined.

(** When the transport accepts the [connected] frame, that frame, carrying
    the connection's own id, is the first thing delivered, the connection is
    registered, and the endpoint goes on as [serve] does. *)
Theorem endpoint_ack_accepted
    (json_loads : string → option JSON)
    (send_json : WebSocket → JSON → option string)
    (websocket : WebSocket) (connection_id : string) (inbound : list Recv)
    (self : FPSConnectionManager) :
  send_json websocket (connected_msg connection_id) = None →
  let rest := serve json_loads send_json websocket connection_id inbound
                (connect websocket connection_id self) in
  fps_websocket_endpoint json_loads send_json websocket connection_id inbound self
  = (outcome rest, manager_after rest,
     (connection_id, connected_msg connection_id) :: delivered rest)
  ∧ assoc_get [("type", JStr "connected"); ("connectionId", JStr connection_id);
               ("game", JStr "fps");
               ("message", JStr "Connected to FPS Game WebSocket")]
              "connectionId" = JStr connection_id.
Proof.
  intros Hsend rest. split; [| reflexivity].
  unfold fps_websocket_endpoint. rewrite bind_update.
  unfold rest, serve, guarded, try_except, bind, ws_send.
  unfold outcome, manager_after, delivered. rewrite Hsend.
  destruct (receive_loop json_loads send_json websocket connection_id inbound
              (connect websocket connection_id self))
    as [[[[]|e] self1] out1]; reflexivity.
Qed.

Lemma endpoint_ack_accepted_witness :
  fps_websocket_endpoint json_loads_sample all_up (Socket 9) "c9"
    [Text (tagged_text "ping")] init
  = (Returned Open, connect (Socket 9) "c9" init,
     [("c9", connected_msg "c9"); ("c9", pong_msg)]).
Proof.
  pose proof (endpoint_ack_accepted json_loads_sample all_up (Socket 9) "c9"
                [Text (tagged_text "ping")] init) as (Hrun & _); [reflexivity |].
  rewrite Hrun. reflexivity.
Defined.

Lemma outcome_of {A : Type} (r : Outcome A) self (out : list Delivery) :
  outcome (r, self, out) = r.
Proof. reflexivity. Qed.

Lemma manager_after_of {A : Type} (r : Outcome A) self (out : list Delivery) :
  manager_after (r, self, out) = self.
Proof. reflexivity. Qed.

Lemma delivered_of {A : Type} (r : Outcome A) self (out : list Delivery) :
  delivered (r, self, out) = out.
Proof. reflexivity. Qed.

(** A broadcast that excludes a connection leaves that connection's player id
    and room memberships alone. *)
Lemma broadcast_touches_only_failures_own send_json message room_id
    connection_id self :
  let after :=
    manager_after (broadcast_to_room send_json message room_id
                     (Some connection_id) self) in
  connection_players after !! connection_id
    = connection_players self !! connection_id
  ∧ (∀ room_id', connection_id ∈ room_members after room_id'
                 ↔ connection_id ∈ room_members self room_id').
Proof.
  intros after. unfold after.
  destruct (rooms self !! room_id) as [members|] eqn:Hroom.
  - rewrite (broadcast_to_room_run _ _ _ _ _ _ Hroom). unfold manager_after; simpl.
    assert (Hnot : connection_id
                   ∉ failing send_json self message (Some connection_id)
                       (elements members)).
    { unfold failing. rewrite list_elem_of_In, filter_In.
      intros [_ Hcond]. apply andb_prop in Hcond as [Hexcl _].
      by apply bool_decide_eq_true in Hexcl. }
    rewrite disconnect_all_players_lookup, decide_False by done.
    split; [done |]. intros room_id'. by apply disconnect_all_members_other.
  - rewrite (broadcast_to_room_unknown _ _ _ _ _ Hroom). by unfold manager_after.
Qed.

(** ** The [join_room] branch *)

Lemma handle_join_room send_json websocket connection_id fields room_key self :
  eq_str (assoc_get fields "type") "join_room" = true →
  truthy (assoc_get fields "roomId") = true →
  truthy (assoc_get fields "playerId") = true →
  hash_key (assoc_get fields "roomId") = Some room_key →
  send_json websocket (room_joined_msg (assoc_get fields "roomId")) = None →
  let notify :=
    broadcast_to_room send_json
      (player_joined_msg (assoc_get fields "playerId") (assoc_get fields "roomId"))
      room_key (Some connection_id)
      (set_player connection_id (assoc_get fields "playerId")
         (join_room connection_id room_key self)) in
  handle_message send_json websocket connection_id (JObj fields) self
  = (outcome notify, manager_after notify,
     (connection_id, room_joined_msg (assoc_get fields "roomId"))
       :: delivered notify).
Proof.
  intros Htype Hroom Hplayer Hkey Hsend notify.
  unfold handle_message. rewrite bind_py_get, Htype.
  rewrite !bind_py_get, Hroom, Hplayer.
  change (true && true) with true. cbv iota.
  rewrite (bind_as_key _ _ _ _ Hkey), !bind_update.
  by rewrite (bind_ws_send_accepted _ _ _ _ _ _ Hsend).
Qed.

(** A [join_room] message with a truthy, hashable room id and a truthy player
    id, when the sender's transport accepts the reply: the sender is a member
    of the room afterwards and the player id is on record for it, whether or
    not the connection was registered; the sender gets
    [{"type": "room_joined", "roomId": ...}] first, and after it only
    [{"type": "player_joined", "playerId": ..., "roomId": ...}] goes out, to
    others, reaching every other member that is registered and whose
    transport accepts the frame. *)
Theorem join_room_message
    (json_loads : string → option JSON)
    (send_json : WebSocket → JSON → option string)
    (websocket : WebSocket) (connection_id : string) (data : string)
    (fields : list (string * JSON)) (room_key : Key)
    (self : FPSConnectionManager) :
  let reply :=
    JObj [("type", JStr "room_joined"); ("roomId", assoc_get fields "roomId")] in
  let announcement :=
    JObj [("type", JStr "player_joined");
          ("playerId", assoc_get fields "playerId");
          ("roomId", assoc_get fields "roomId")] in
  json_loads data = Some (JObj fields) →
  eq_str (assoc_get fields "type") "join_room" = true →
  truthy (assoc_get fields "roomId") = true →
  truthy (assoc_get fields "playerId") = true →
  hash_key (assoc_get fields "roomId") = Some room_key →
  send_json websocket reply = None →
  let run :=
    receive_iteration json_loads send_json websocket connection_id data self in
  outcome run = Returned tt
  ∧ connection_id ∈ room_members (manager_after run) room_key
  ∧ connection_players (manager_after run) !! connection_id
    = Some (assoc_get fields "playerId")
  ∧ (∃ relays,
       delivered run = (connection_id, reply) :: relays
       ∧ ∀ recipient m, (recipient, m) ∈ relays →
                        m = announcement ∧ recipient ≠ connection_id)
  ∧ (∀ member websocket',
       member ∈ room_members self room_key → member ≠ connection_id →
       active_connections self !! member = Some websocket' →
       send_json websocket' announcement = None →
       (member, announcement) ∈ delivered run).
Proof.
  intros reply announcement Hloads Htype Hroom Hplayer Hkey Hsend run.
  pose proof (handle_join_room send_json websocket connection_id fields room_key
                self Htype Hroom Hplayer Hkey Hsend) as Hhandle.
  cbv zeta in Hhandle.
  change (player_joined_msg (assoc_get fields "playerId")
                            (assoc_get fields "roomId"))
    with announcement in Hhandle.
  change (room_joined_msg (assoc_get fields "roomId")) with reply in Hhandle.
  set (joined := set_player connection_id (assoc_get fields "playerId")
                   (join_room connection_id room_key self)) in Hhandle.
  set (notify := broadcast_to_room send_json announcement room_key
                   (Some connection_id) joined) in Hhandle.
  assert (Hnotify : outcome notify = Returned tt)
    by apply broadcast_to_room_returns.
  rewrite Hnotify in Hhandle.
  unfold run.
  rewrite (receive_iteration_returned _ _ _ _ _ _ _ _ _ _ Hloads Hhandle).
  rewrite outcome_of, !manager_after_of, !delivered_of.
  pose proof (broadcast_touches_only_failures_own send_json announcement room_key
                connection_id joined) as (Hown_players & Hown_rooms).
  fold notify in Hown_players, Hown_rooms.
  split; [reflexivity |]. split; [| split; [| split]].
  - apply Hown_rooms.
    change (room_members joined room_key)
      with (room_members (join_room connection_id room_key self) room_key).
    rewrite room_members_join, decide_True by done.
    apply elem_of_union. right. by apply elem_of_singleton.
  - rewrite Hown_players. apply lookup_insert_eq.
  - exists (delivered notify). split; [reflexivity |].
    intros recipient m Hin.
    apply broadcast_to_room_delivered in Hin as (-> & _ & Hexcl & _).
    split; [reflexivity | congruence].
  - intros member websocket' Hmember Hne Hactive Hsend'.
    apply elem_of_cons. right.
    apply (broadcast_to_room_reaches _ _ _ _ _ _ websocket'); try done.
    + change (room_members joined room_key)
        with (room_members (join_room connection_id room_key self) room_key).
      rewrite room_members_join, decide_True by done.
      apply elem_of_union. by left.
    + congruence.
Qed.

Lemma join_room_message_witness :
  let run := receive_iteration json_loads_rooms all_up (Socket 9) "c9"
               (join_text (quoted "r1") "pz") three_in_room in
  "c9" ∈ room_members (manager_after run) (KStr "r1")
  ∧ connection_players (manager_after run) !! "c9" = Some (JStr "pz")
  ∧ ("c2", JObj [("type", JStr "player_joined"); ("playerId", JStr "pz");
                 ("roomId", JStr "r1")]) ∈ delivered run.
Proof.
  pose proof (join_room_message json_loads_rooms all_up (Socket 9) "c9"
                (join_text (quoted "r1") "pz")
                [("type", JStr "join_room"); ("roomId", JStr "r1");
                 ("playerId", JStr "pz")]
                (KStr "r1") three_in_room) as Hthm.
  destruct Hthm as (_ & Hmember & Hplayer & _ & Hrelay);
    [reflexivity | reflexivity | reflexivity | reflexivity | reflexivity
    | reflexivity |].
  split; [exact Hmember |]. split; [exact Hplayer |].
  apply (Hrelay "c2" (Socket 2)); [| discriminate | reflexivity | reflexivity].
  vm_compute. reflexivity.
Defined.

(** ** Room messages that name no room *)

(** A [join_room], [leave_room] or [game_state] message in which a field the
    branch tests is missing or falsy (no room id; for [join_room], no room id
    or no player id) is passed over in silence: no reply, no error frame, no
    change to the manager. *)
Theorem room_message_lacking_field_ignored
    (json_loads : string → option JSON)
    (send_json : WebSocket → JSON → option string)
    (websocket : WebSocket) (connection_id : string) (data : string)
    (fields : list (string * JSON)) (self : FPSConnectionManager) :
  json_loads data = Some (JObj fields) →
  lacks_field fields = true →
  silently_ignored json_loads send_json websocket connection_id data self.
Proof.
  intros Hloads Hlacks. unfold silently_ignored.
  apply (receive_iteration_returned _ _ _ _ _ _ _ _ _ _ Hloads).
  unfold lacks_field in Hlacks.
  apply orb_prop in Hlacks as [Hlacks|Hlacks];
    [apply orb_prop in Hlacks as [Hlacks|Hlacks] |];
    apply andb_prop in Hlacks as [Htype Hfalsy];
    apply negb_true_iff in Hfalsy.
  - unfold handle_message. rewrite bind_py_get, Htype, !bind_py_get.
    by rewrite Hfalsy.
  - assert (Hjoin : eq_str (assoc_get fields "type") "join_room" = false)
      by (by rewrite (eq_str_true _ _ Htype)).
    unfold handle_message. rewrite bind_py_get, Hjoin, Htype.
    by rewrite bind_py_get, bind_get_manager, Hfalsy.
  - assert (Hjoin : eq_str (assoc_get fields "type") "join_room" = false)
      by (by rewrite (eq_str_true _ _ Htype)).
    assert (Hleave : eq_str (assoc_get fields "type") "leave_room" = false)
      by (by rewrite (eq_str_true _ _ Htype)).
    unfold handle_message. rewrite bind_py_get, Hjoin, Hleave, Htype.
    by rewrite bind_py_get, Hfalsy.
Qed.

Lemma room_message_lacking_field_ignored_witness :
  silently_ignored json_loads_rooms all_up (Socket 1) "c1"
                   (tagged_text "join_room") three_in_room.
Proof.
  apply (room_message_lacking_field_ignored json_loads_rooms all_up (Socket 1)
           "c1" (tagged_text "join_room") [("type", JStr "join_room")]
           three_in_room); reflexivity.
Defined.



(** ** Replies the transport refuses *)

(** When the transport refuses the [pong], the exception is caught by the
    inner [except Exception] and the frame
    [{"type": "error", "message": <the text of the transport's exception>}]
    goes to the same connection; if that one is accepted the loop goes on
    with the manager as it was. *)
Theorem ping_reply_refused
    (json_loads : string → option JSON)
    (send_json : WebSocket → JSON → option string)
    (websocket : WebSocket) (connection_id : string) (data : string)
    (fields : list (string * JSON)) (self : FPSConnectionManager)
    (text : string) :
  json_loads data = Some (JObj fields) →
  eq_str (assoc_get fields "type") "ping" = true →
  send_json websocket (JObj [("type", JStr "pong")]) = Some text →
  send_json websocket (JObj [("type", JStr "error"); ("message", JStr text)])
    = None →
  receive_iteration json_loads send_json websocket connection_id data self
  = (Returned tt, self,
     [(connection_id, JObj [("type", JStr "error"); ("message", JStr text)])]).
Proof.
  intros Hloads Htype Hpong Herror.
  unfold receive_iteration, try_except. rewrite Hloads.
  rewrite (handle_ping _ _ _ _ _ Htype). unfold ws_send.
  change pong_msg with (JObj [("type", JStr "pong")]). rewrite Hpong.
  simpl str_exc.
  change (error_msg text)
    with (JObj [("type", JStr "error"); ("message", JStr text)]).
  by rewrite Herror.
Qed.

Lemma ping_reply_refused_witness :
  receive_iteration json_loads_sample pong_down (Socket 1) "c1"
                    (tagged_text "ping") three_in_room
  = (Returned tt, three_in_room,
     [("c1", JObj [("type", JStr "error"); ("message", JStr "broken pipe")])]).
Proof.
  apply (ping_reply_refused json_loads_sample pong_down (Socket 1) "c1"
           (tagged_text "ping") [("type", JStr "ping")] three_in_room
           "broken pipe"); reflexivity.
Defined.

(** When the text is not JSON and the transport refuses the [error] frame as
    well, the exception leaves the loop: the connection is disconnected and
    closed, nothing is delivered and the texts that follow are never read. *)
Theorem malformed_reply_refused_closes
    (json_loads : string → option JSON)
    (send_json : WebSocket → JSON → option string)
    (websocket : WebSocket) (connection_id : string) (data : string)
    (rest : list Recv) (self : FPSConnectionManager) (text : string) :
  json_loads data = None →
  send_json websocket (error_msg "Invalid JSON format") = Some text →
  serve json_loads send_json websocket connection_id (Text data :: rest) self
  = (Returned Closed, disconnect connection_id self, []).
Proof.
  intros Hloads Hsend. unfold serve, guarded, try_except.
  cbn [receive_loop]. unfold bind, receive_iteration, try_except.
  rewrite Hloads. unfold raise, ws_send. by rewrite Hsend.
Qed.

Lemma malformed_reply_refused_closes_witness :
  serve json_loads_sample all_down (Socket 1) "c1"
        [Text "{not json"; Text (tagged_text "ping")] three_in_room
  = (Returned Closed, disconnect "c1" three_in_room, []).
Proof.
  apply (malformed_reply_refused_closes json_loads_sample all_down (Socket 1)
           "c1" "{not json" [Text (tagged_text "ping")] three_in_room
           "connection closed"); reflexivity.
Defined.

(** ** Who gets registered *)

(** Only [connect] puts an id into [active_connections]: through any history
    without a [connect] call and without a new run of the endpoint, the
    registered connections are among those registered before, each with the
    transport it had. *)
Theorem only_connect_registers
    (json_loads : string → option JSON)
    (send_json : WebSocket → JSON → option string)
    (actions : list Action) (self : FPSConnectionManager) :
  Forall (action_within (λ _, False) True) actions →
  active_connections (run_actions json_loads send_json actions self)
  ⊆ active_connections self.
Proof.
  intros Hactions.
  apply (run_actions_keep json_loads send_json
           (λ s, active_connections s ⊆ active_connections self)
           (λ _, False) True); [| | | | | exact Hactions | done].
  - intros c s Hsub. rewrite disconnect_active.
    etrans; [apply delete_subseteq | exact Hsub].
  - intros c r s Hsub. by rewrite active_connections_leave_room.
  - intros c r p s Hsub _ _. exact Hsub.
  - intros ws c s [].
  - intros c r s _ Hsub. exact Hsub.
Qed.

Lemma only_connect_registers_witness :
  active_connections
    (run_actions json_loads_sample c2_down
       [RunServe (Socket 1) "c1" [Text (room_text "game_state" "r1")];
        CallJoinRoom "c9" (KStr "r1")] three_in_room)
  ⊆ active_connections three_in_room.
Proof.
  apply (only_connect_registers json_loads_sample c2_down
           [RunServe (Socket 1) "c1" [Text (room_text "game_state" "r1")];
            CallJoinRoom "c9" (KStr "r1")] three_in_room).
  repeat constructor.
Defined.

(** ** What holds in every state the endpoint reaches *)

Lemma players_truthy_disconnect c self :
  players_truthy self → players_truthy (disconnect c self).
Proof.
  intros Htruthy x p. rewrite disconnect_players. intros Hlookup.
  apply lookup_delete_Some in Hlookup as [_ Hlookup]. by apply (Htruthy x).
Qed.

(** From the empty manager, however the endpoint is run and whatever other
    method of the manager is called, short of a [join_room] call behind the
    endpoint's back: every member of a room has a player id on record, every
    player id on record is truthy, and no room has a falsy id. *)
Theorem endpoint_invariants
    (json_loads : string → option JSON)
    (send_json : WebSocket → JSON → option string)
    (actions : list Action) :
  Forall through_endpoint actions →
  let reached_state := run_actions json_loads send_json actions init in
  members_recorded reached_state
  ∧ players_truthy reached_state
  ∧ rooms_truthy reached_state
  ∧ (∀ room_id c, c ∈ room_members reached_state room_id →
       key_truthy room_id = true
       ∧ ∃ player_id, connection_players reached_state !! c = Some player_id
                      ∧ truthy player_id = true).
Proof.
  intros Hactions reached_state.
  assert (Hrecorded : members_recorded reached_state)
    by (apply endpoint_members_recorded; [done | apply init_members_recorded]).
  assert (Hrooms : rooms_truthy reached_state)
    by (apply endpoint_rooms_truthy; [done | apply init_rooms_truthy]).
  assert (Hplayers : players_truthy reached_state).
  { apply (run_actions_keep json_loads send_json players_truthy (λ _, True) False);
      [| | | | | exact Hactions |].
    - intros; by apply players_truthy_disconnect.
    - intros c r s Htruthy x p. rewrite connection_players_leave_room.
      apply Htruthy.
    - intros c r p s Htruthy _ Hp x p'.
      change (connection_players (set_player c p (join_room c r s)))
        with (<[c := p]> (connection_players s)).
      intros Hlookup. apply lookup_insert_Some in Hlookup as [[_ <-]|[_ Hlookup]];
        [done | by apply (Htruthy x)].
    - intros ws c s _ Htruthy. exact Htruthy.
    - intros c r s [].
    - intros x p Hlookup. unfold init in Hlookup. simpl in Hlookup.
      by rewrite lookup_empty in Hlookup. }
  split; [done |]. split; [done |]. split; [done |].
  intros room_id c Hin. split.
  - destruct (key_truthy room_id) eqn:Hkey; [done |].
    rewrite (rooms_truthy_no_members _ _ Hrooms Hkey) in Hin.
    by apply not_elem_of_empty in Hin.
  - destruct (Hrecorded room_id c Hin) as [p Hp]. exists p.
    split; [done | by apply (Hplayers c)].
Qed.

Lemma endpoint_invariants_witness :
  members_recorded
    (run_actions json_loads_rooms all_up
       [RunEndpoint (Socket 9) "c9" [Text (join_text (quoted "r2") "pz")];
        CallDisconnect "c9"] init).
Proof.
  apply (endpoint_invariants json_loads_rooms all_up
           [RunEndpoint (Socket 9) "c9" [Text (join_text (quoted "r2") "pz")];
            CallDisconnect "c9"]).
  repeat constructor.
Defined.

(** ** One player id per connection *)

Lemma broadcast_all_accept send_json message room_id exclude self :
  (∀ websocket m, send_json websocket m = None) →
  manager_after (broadcast_to_room send_json message room_id exclude self) = self.
Proof.
  intros Haccept.
  destruct (rooms self !! room_id) as [members|] eqn:Hroom.
  - rewrite (broadcast_to_room_run _ _ _ _ _ _ Hroom), manager_after_of.
    assert (Hnone : failing send_json self message exclude (elements members) = []).
    { unfold failing. generalize (elements members). intros ids.
      induction ids as [|c ids IH]; [done |]. simpl.
      replace (refuses send_json self message c) with false.
      - by rewrite andb_false_r.
      - unfold refuses. destruct (active_connections self !! c); [| done].
        by rewrite Haccept. }
    by rewrite Hnone.
  - by rewrite broadcast_to_room_unknown.
Qed.

(** The player id is kept per connection, not per room: a [join_room]
    replaces whatever id an earlier join recorded, and the frame
    [{"type": "player_left", "playerId": ..., "roomId": ...}] that a later
    [leave_room] broadcasts, for whichever room, has as its [playerId] the id
    of the latest join.  (Stated for transports that accept every frame.) *)
Theorem player_id_per_connection
    (json_loads : string → option JSON)
    (send_json : WebSocket → JSON → option string)
    (websocket : WebSocket) (connection_id : string)
    (join_data leave_data : string)
    (join_fields leave_fields : list (string * JSON))
    (joined_key left_key : Key) (self : FPSConnectionManager) :
  (∀ websocket' m, send_json websocket' m = None) →
  json_loads join_data = Some (JObj join_fields) →
  eq_str (assoc_get join_fields "type") "join_room" = true →
  truthy (assoc_get join_fields "roomId") = true →
  truthy (assoc_get join_fields "playerId") = true →
  hash_key (assoc_get join_fields "roomId") = Some joined_key →
  json_loads leave_data = Some (JObj leave_fields) →
  eq_str (assoc_get leave_fields "type") "leave_room" = true →
  truthy (assoc_get leave_fields "roomId") = true →
  hash_key (assoc_get leave_fields "roomId") = Some left_key →
  let run := serve json_loads send_json websocket connection_id
               [Text join_data; Text leave_data] self in
  outcome run = Returned Open
  ∧ connection_players (manager_after run) !! connection_id
    = Some (assoc_get join_fields "playerId")
  ∧ (∀ member websocket',
       member ∈ room_members self left_key → member ≠ connection_id →
       active_connections self !! member = Some websocket' →
       (member,
        JObj [("type", JStr "player_left");
              ("playerId", assoc_get join_fields "playerId");
              ("roomId", assoc_get leave_fields "roomId")])
         ∈ delivered run).
Proof.
  intros Haccept Hjoin_loads Hjoin_type Hjoin_room Hjoin_player Hjoin_key
         Hleave_loads Hleave_type Hleave_room Hleave_key run.
  set (player := assoc_get join_fields "playerId").
  set (joined := set_player connection_id player
                   (join_room connection_id joined_key self)).
  (* the join *)
  pose proof (handle_join_room send_json websocket connection_id join_fields
                joined_key self Hjoin_type Hjoin_room Hjoin_player Hjoin_key
                (Haccept _ _)) as Hjoin.
  cbv zeta in Hjoin. fold player in Hjoin. fold joined in Hjoin.
  rewrite broadcast_to_room_returns, (broadcast_all_accept _ _ _ _ _ Haccept)
    in Hjoin.
  pose proof (receive_iteration_returned json_loads send_json websocket
                connection_id join_data _ self _ _ _ Hjoin_loads Hjoin)
    as Hfirst.
  (* the leave *)
  pose proof (handle_leave_room send_json websocket connection_id leave_fields
                left_key joined Hleave_type Hleave_room Hleave_key
                (Haccept _ _)) as Hleave.
  cbv zeta in Hleave.
  assert (Hrecorded : connection_players joined !! connection_id = Some player)
    by apply lookup_insert_eq.
  rewrite Hrecorded in Hleave.
  change (default JNull (Some player)) with player in Hleave.
  fold player in Hjoin_player. rewrite Hjoin_player in Hleave.
  rewrite broadcast_to_room_returns, (broadcast_all_accept _ _ _ _ _ Haccept)
    in Hleave.
  pose proof (receive_iteration_returned json_loads send_json websocket
                connection_id leave_data _ joined _ _ _ Hleave_loads Hleave)
    as Hsecond.
  unfold run.
  rewrite (serve_cons_returned _ _ _ _ _ _ _ _ _ Hfirst).
  rewrite (serve_cons_returned _ _ _ _ _ _ _ _ _ Hsecond).
  rewrite outcome_of, manager_after_of, delivered_of.
  rewrite !outcome_of, !manager_after_of, !delivered_of.
  split; [reflexivity |].
  split.
  { unfold manager_after; simpl. by rewrite connection_players_leave_room. }
  intros member websocket' Hmember Hne Hactive.
  apply elem_of_app. right. apply elem_of_app. left.
  apply elem_of_cons. right.
  apply (broadcast_to_room_reaches _ _ _ _ _ _ websocket').
  - rewrite room_members_leave, decide_True by done.
    apply elem_of_difference. split.
    + change (room_members joined left_key)
        with (room_members (join_room connection_id joined_key self) left_key).
      rewrite room_members_join.
      destruct (decide (joined_key = left_key)) as [->|]; [| done].
      apply elem_of_union. by left.
    + intros Hin. apply elem_of_singleton in Hin. congruence.
  - congruence.
  - by rewrite active_connections_leave_room.
  - apply Haccept.
Qed.

Lemma player_id_per_connection_witness :
  ("c2", JObj [("type", JStr "player_left"); ("playerId", JStr "pz");
               ("roomId", JStr "r1")])
    ∈ delivered (serve json_loads_rooms all_up (Socket 1) "c1"
                   [Text (join_text (quoted "r2") "pz");
                    Text (room_text "leave_room" "r1")] three_in_room).
Proof.
  pose proof (player_id_per_connection json_loads_rooms all_up (Socket 1) "c1"
                (join_text (quoted "r2") "pz") (room_text "leave_room" "r1")
                [("type", JStr "join_room"); ("roomId", JStr "r2");
                 ("playerId", JStr "pz")]
                [("type", JStr "leave_room"); ("roomId", JStr "r1")]
                (KStr "r2") (KStr "r1") three_in_room) as Hthm.
  destruct Hthm as (_ & _ & Hleft);
    [reflexivity | reflexivity | reflexivity | reflexivity | reflexivity
    | reflexivity | reflexivity | reflexivity | reflexivity | reflexivity |].
  apply (Hleft "c2" (Socket 2)); [| discriminate | reflexivity].
  vm_compute. reflexivity.
Defined.

(** * [app/main.py]: the allowed origins *)

Lemma py_lstrip_starts s : starts_with_space (py_lstrip s) = false.
Proof.
  induction s as [|c rest IH]; simpl; [done |].
  destruct (is_space c) eqn:Hc; [exact IH | simpl; exact Hc].
Qed.

Lemma py_rstrip_ends s : ends_with_space (py_rstrip s) = false.
Proof.
  induction s as [|c rest IH]; simpl; [done |].
  destruct (py_rstrip rest) as [|c' kept] eqn:Hkept.
  - destruct (is_space c) eqn:Hc; simpl; [done | exact Hc].
  - simpl. exact IH.
Qed.

Lemma py_rstrip_starts s :
  starts_with_space s = false → starts_with_space (py_rstrip s) = false.
Proof.
  destruct s as [|c rest]; simpl; [done |]. intros Hc.
  destruct (py_rstrip rest); [by rewrite Hc | exact Hc].
Qed.

Lemma py_lstrip_comma s : has_comma s = false → has_comma (py_lstrip s) = false.
Proof.
  induction s as [|c rest IH]; simpl; [done |]. intros Hno.
  apply orb_false_elim in Hno as [Hc Hrest].
  destruct (is_space c); [by apply IH | simpl; by rewrite Hc, Hrest].
Qed.

Lemma py_rstrip_comma s : has_comma s = false → has_comma (py_rstrip s) = false.
Proof.
  induction s as [|c rest IH]; simpl; [done |]. intros Hno.
  apply orb_false_elim in Hno as [Hc Hrest]. specialize (IH Hrest).
  destruct (py_rstrip rest) as [|c' kept].
  - destruct (is_space c); simpl; [done | by rewrite Hc].
  - simpl. simpl in IH. by rewrite Hc, IH.
Qed.

Lemma py_split_comma s piece :
  In piece (py_split s) → has_comma piece = false.
Proof.
  revert piece. induction s as [|c rest IH]; simpl; intros piece Hin.
  - destruct Hin as [<-|[]]. reflexivity.
  - destruct (Ascii.eqb c comma) eqn:Hc.
    + destruct Hin as [<-|Hin]; [reflexivity | by apply IH].
    + destruct (py_split rest) as [|first pieces].
      * destruct Hin as [<-|[]]. simpl. by rewrite Hc.
      * destruct Hin as [<-|Hin].
        -- simpl. rewrite Hc. apply IH. by left.
        -- apply IH. by right.
Qed.

Lemma py_strip_clean s :
  has_comma s = false → String.eqb (py_strip s) EmptyString = false →
  clean_origin (py_strip s) = true.
Proof.
  intros Hcomma Hnonempty. unfold clean_origin. rewrite Hnonempty.
  unfold py_strip.
  rewrite (py_rstrip_starts _ (py_lstrip_starts s)), py_rstrip_ends.
  by rewrite (py_rstrip_comma _ (py_lstrip_comma _ Hcomma)).
Qed.

(** Every origin that [cors_origins] yields, whatever the setting, is
    non-empty, contains no comma and has no white space at either end. *)
Theorem cors_origins_clean (cors_origins_str : option string) (origin : string) :
  In origin (cors_origins cors_origins_str) → clean_origin origin = true.
Proof.
  unfold cors_origins. destruct cors_origins_str as [s|].
  - destruct (negb (String.eqb s EmptyString) && negb (String.eqb s "*")).
    + intros Hin. apply in_map_iff in Hin as (piece & <- & Hin).
      apply filter_In in Hin as [Hin Hnonempty].
      apply negb_true_iff in Hnonempty.
      apply py_strip_clean; [by apply (py_split_comma s) | done].
    + destruct (String.eqb s "*").
      * intros [<-|[]]. reflexivity.
      * intros Hin. repeat (destruct Hin as [<-|Hin]; [reflexivity |]).
        destruct Hin.
    - intros Hin. repeat (destruct Hin as [<-|Hin]; [reflexivity |]).
      destruct Hin.
Qed.

Lemma cors_origins_clean_witness :
  clean_origin "https://b.com" = true.
Proof.
  apply (cors_origins_clean (Some " https://a.com , https://b.com,, ")).
  right. left. reflexivity.
Defined.

Lemma py_lstrip_id s : starts_with_space s = false → py_lstrip s = s.
Proof. destruct s as [|c rest]; simpl; [done | by intros ->]. Qed.

Lemma py_rstrip_id s : ends_with_space s = false → py_rstrip s = s.
Proof.
  induction s as [|c rest IH]; simpl; [done |].
  destruct rest as [|c' rest'].
  - simpl. by intros ->.
  - intros Hends. rewrite (IH Hends). reflexivity.
Qed.

Lemma py_strip_id s : clean_origin s = true → py_strip s = s.
Proof.
  unfold clean_origin. intros Hclean.
  apply andb_prop in Hclean as [Hclean _].
  apply andb_prop in Hclean as [Hclean Hends].
  apply andb_prop in Hclean as [_ Hstarts].
  apply negb_true_iff in Hends, Hstarts.
  unfold py_strip. rewrite (py_lstrip_id _ Hstarts). by apply py_rstrip_id.
Qed.

Lemma py_split_no_comma s : has_comma s = false → py_split s = [s].
Proof.
  induction s as [|c rest IH]; simpl; [done |]. intros Hno.
  apply orb_false_elim in Hno as [Hc Hrest].
  by rewrite Hc, (IH Hrest).
Qed.

Lemma py_split_append piece rest :
  has_comma piece = false →
  py_split (piece +:+ String comma rest) = piece :: py_split rest.
Proof.
  induction piece as [|c piece IH]; simpl; intros Hno.
  - reflexivity.
  - apply orb_false_elim in Hno as [Hc Hpiece].
    by rewrite Hc, (IH Hpiece).
Qed.

Lemma py_split_join (pieces : list string) :
  pieces ≠ [] → Forall (λ piece, has_comma piece = false) pieces →
  py_split (py_join pieces) = pieces.
Proof.
  induction pieces as [|piece rest IH]; [done |]. intros _ Hall.
  inversion Hall as [|? ? Hpiece Hrest]; subst.
  destruct rest as [|next rest].
  - simpl. by apply py_split_no_comma.
  - change (py_join (piece :: next :: rest))
      with (piece +:+ String comma (py_join (next :: rest))).
    rewrite (py_split_append _ _ Hpiece). f_equal. by apply IH.
Qed.

Lemma clean_origin_comma s : clean_origin s = true → has_comma s = false.
Proof.
  unfold clean_origin. intros Hclean.
  apply andb_prop in Hclean as [_ Hcomma]. by apply negb_true_iff in Hcomma.
Qed.

Lemma clean_origins_kept (origins : list string) :
  Forall (λ origin, clean_origin origin = true) origins →
  List.map py_strip
    (List.filter (λ origin, negb (String.eqb (py_strip origin) EmptyString))
                 origins) = origins.
Proof.
  induction origins as [|origin rest IH]; [done |]. intros Hall.
  inversion Hall as [|? ? Hclean Hrest]; subst. simpl.
  rewrite (py_strip_id _ Hclean).
  assert (Hnonempty : String.eqb origin EmptyString = false).
  { unfold clean_origin in Hclean.
    apply andb_prop in Hclean as [Hclean _].
    apply andb_prop in Hclean as [Hclean _].
    apply andb_prop in Hclean as [Hclean _].
    by apply negb_true_iff in Hclean. }
  rewrite Hnonempty. simpl. rewrite (py_strip_id _ Hclean). f_equal. by apply IH.
Qed.

(** Writing a non-empty list of origins, each non-empty, without commas and
    without white space at its ends, as one comma-separated setting and
    reading it back with [cors_origins] gives the list again. *)
Theorem cors_origins_round_trip (origins : list string) :
  origins ≠ [] →
  Forall (λ origin, clean_origin origin = true) origins →
  cors_origins (Some (py_join origins)) = origins.
Proof.
  intros Hnonempty Hclean.
  assert (Hsplit : py_split (py_join origins) = origins).
  { apply py_split_join; [done |].
    eapply Forall_impl; [exact Hclean |]. intros origin. apply clean_origin_comma. }
  unfold cors_origins.
  destruct (String.eqb (py_join origins) EmptyString) eqn:Hempty.
  - apply String.eqb_eq in Hempty. rewrite Hempty in Hsplit. simpl in Hsplit.
    subst origins. inversion Hclean as [|? ? Hbad _]. discriminate Hbad.
  - destruct (String.eqb (py_join origins) "*") eqn:Hstar; simpl.
    + apply String.eqb_eq in Hstar. rewrite Hstar in Hsplit. by simpl in Hsplit.
    + rewrite Hsplit. by apply clean_origins_kept.
Qed.

Lemma cors_origins_round_trip_witness :
  cors_origins (Some (py_join ["https://a.com"; "https://b.com"]))
  = ["https://a.com"; "https://b.com"].
Proof.
  apply (cors_origins_round_trip ["https://a.com"; "https://b.com"]);
    [discriminate | repeat constructor].
Defined.

(** The [Access-Control-Allow-Origin] header of an error response is either
    ["*"] or one of the configured origins, never an origin that is not on
    the list.  A request origin that is on the list is echoed; with the list
    [["*"]] or an empty list the header is ["*"]; otherwise it is the first
    configured origin. *)
Theorem allow_origin_on_the_list (origins : list string)
    (origin_header : option string) :
  (allow_origin origins origin_header = "*"
   ∨ allow_origin origins origin_header ∈ origins)
  ∧ (∀ origin, origin_header = Some origin → origin ∈ origins →
       allow_origin origins origin_header = origin)
  ∧ (origins = ["*"] ∨ origins = [] → allow_origin origins origin_header = "*")
  ∧ (∀ origin first rest,
       origin_header = Some origin → origins = first :: rest →
       origin ∉ origins → origins ≠ ["*"] →
       allow_origin origins origin_header = first).
Proof.
  unfold allow_origin.
  destruct (decide (origins = ["*"])) as [Hstar|Hstar].
  - rewrite (bool_decide_eq_true_2 _ Hstar). simpl.
    split; [by left |]. split; [| split; [done |]].
    + intros origin -> Hin. subst origins.
      apply list_elem_of_singleton in Hin. by subst.
    + intros origin first rest _ _ _ Hne. by destruct Hne.
  - rewrite (bool_decide_eq_false_2 _ Hstar). simpl.
    destruct (decide (default "*" origin_header ∈ origins)) as [Hin|Hnot].
    + rewrite (bool_decide_eq_true_2 _ Hin).
      split; [by right |]. split; [by intros origin -> _ |].
      split.
      * intros [Heq|Heq]; [by destruct Hstar |].
        subst origins. by apply elem_of_nil in Hin.
      * intros origin first rest -> _ Hnot _. by destruct Hnot.
    + rewrite (bool_decide_eq_false_2 _ Hnot).
      destruct origins as [|first rest].
      * split; [by left |]. split; [| split; [done |]].
        -- intros origin _ Hin. by apply elem_of_nil in Hin.
        -- intros origin first rest _ Heq. discriminate Heq.
      * split; [right; by left |]. split; [| split].
        -- intros origin -> Hin. by destruct Hnot.
        -- intros [Heq|Heq]; [by destruct Hstar | discriminate Heq].
        -- intros origin first' rest' _ Heq _ _. by inversion Heq.
Qed.

Lemma allow_origin_on_the_list_witness :
  allow_origin ["https://a.com"; "https://b.com"] (Some "https://b.com")
    = "https://b.com"
  ∧ allow_origin ["https://a.com"; "https://b.com"] (Some "https://evil.com")
    = "https://a.com"
  ∧ allow_origin [] (Some "https://evil.com") = "*".
Proof.
  split; [| split].
  - apply (allow_origin_on_the_list ["https://a.com"; "https://b.com"]
             (Some "https://b.com")); [reflexivity |].
    apply elem_of_cons. right. apply elem_of_cons. by left.
  - apply (allow_origin_on_the_list ["https://a.com"; "https://b.com"]
             (Some "https://evil.com")) with (origin := "https://evil.com")
                                              (rest := ["https://b.com"]);
      [reflexivity | reflexivity | | discriminate].
    intros Hin. apply elem_of_cons in Hin as [Heq|Hin]; [discriminate |].
    apply elem_of_cons in Hin as [Heq|Hin]; [discriminate |].
    by apply elem_of_nil in Hin.
  - apply (allow_origin_on_the_list [] (Some "https://evil.com")). by right.
Defined.

(** * [app/core/config.py]: the secret key *)

Lemma validate_secret_key_characterized getenv v v' warned :
  validate_secret_key getenv v = inr (v', warned) →
  v' = v ∧ (32 ≤ String.length v)%nat
  ∧ ¬ (v = "your-secret-key-here-change-in-production"
       ∧ is_production getenv = true).
Proof.
  unfold validate_secret_key. intros Hrun.
  destruct (bool_decide (v ∈ insecure_defaults) && is_production getenv)
    eqn:Hguard; [discriminate |].
  destruct (Nat.ltb_spec (String.length v) 32) as [Hshort|Hlen]; [discriminate |].
  inversion Hrun; subst. split; [done |]. split; [done |].
  intros [-> Hprod]. rewrite Hprod in Hguard.
  rewrite bool_decide_eq_true_2 in Hguard; [discriminate |].
  apply elem_of_cons. right. apply elem_of_cons. by left.
Qed.

(** [validate_secret_key] returns the key unchanged, and it accepts a key
    exactly when the key has at least 32 characters and is not the long
    insecure default in production.  The three other insecure defaults are
    rejected in every environment, being too short; the warning is issued on
    an accepted key exactly for the long default. *)
Theorem validate_secret_key_accepts (getenv : string → option string)
    (v : string) :
  ((∃ warned, validate_secret_key getenv v = inr (v, warned))
   ↔ (32 ≤ String.length v)%nat
     ∧ ¬ (v = "your-secret-key-here-change-in-production"
          ∧ is_production getenv = true))
  ∧ (∀ v' warned, validate_secret_key getenv v = inr (v', warned) →
       v' = v
       ∧ (warned = true ↔ v = "your-secret-key-here-change-in-production"))
  ∧ (v ∈ ["your-secret-key-here"; "secret"; "changeme"] →
     ∃ e, validate_secret_key getenv v = inl e).
Proof.
  unfold validate_secret_key.
  assert (Hinsecure : ∀ x, x ∈ insecure_defaults →
            x = "your-secret-key-here-change-in-production"
            ∨ (String.length x < 32)%nat).
  { intros x Hin. unfold insecure_defaults in Hin.
    repeat (apply elem_of_cons in Hin as [->|Hin];
            [first [by left | right; simpl; lia] |]).
    by apply elem_of_nil in Hin. }
  assert (Hlong : "your-secret-key-here-change-in-production" ∈ insecure_defaults).
  { apply elem_of_cons. right. apply elem_of_cons. by left. }
  destruct (decide (v ∈ insecure_defaults)) as [Hin|Hnot].
  - rewrite (bool_decide_eq_true_2 _ Hin). simpl.
    destruct (is_production getenv) eqn:Hprod.
    + split; [| split].
      * split; [intros [w Hw]; discriminate |].
        intros [Hlen Hnot]. destruct Hnot.
        destruct (Hinsecure v Hin) as [->|Hshort]; [done | lia].
      * intros v' w Hw. discriminate.
      * intros _. by eexists.
    + destruct (Nat.ltb_spec (String.length v) 32) as [Hshort|Hlen].
      * split; [| split].
        -- split; [intros [w Hw]; discriminate | intros [Hlen _]; lia].
        -- intros v' w Hw. discriminate.
        -- intros _. by eexists.
      * assert (v = "your-secret-key-here-change-in-production") as ->.
        { destruct (Hinsecure v Hin) as [->|Hshort]; [done | lia]. }
        split; [| split].
        -- split; [intros _; split; [done |]; intros [_ Hp]; discriminate |].
           intros _. by eexists.
        -- intros v' w Hw. inversion Hw; subst. done.
        -- intros Hin'. exfalso.
           repeat (apply elem_of_cons in Hin' as [Heq|Hin']; [discriminate |]).
           by apply elem_of_nil in Hin'.
  - rewrite (bool_decide_eq_false_2 _ Hnot). simpl.
    assert (Hne : v ≠ "your-secret-key-here-change-in-production")
      by (intros ->; by destruct Hnot).
    destruct (Nat.ltb_spec (String.length v) 32) as [Hshort|Hlen].
    + split; [| split].
      * split; [intros [w Hw]; discriminate | intros [Hlen _]; lia].
      * intros v' w Hw. discriminate.
      * intros _. by eexists.
    + split; [| split].
      * split; [intros _; split; [done |]; by intros [Heq _] |].
        intros _. by eexists.
      * intros v' w Hw. inversion Hw; subst. split; [done |].
        split; [discriminate | done].
      * intros Hin'. exfalso. apply Hnot. unfold insecure_defaults.
        repeat (apply elem_of_cons in Hin' as [->|Hin'];
                [solve [repeat (apply elem_of_cons; first [by left | right])] |]).
        by apply elem_of_nil in Hin'.
Qed.

Lemma validate_secret_key_accepts_witness :
  (∃ e, validate_secret_key env_prod "changeme" = inl e)
  ∧ validate_secret_key env_unset "your-secret-key-here-change-in-production"
    = inr ("your-secret-key-here-change-in-production", true).
Proof.
  split.
  - apply (validate_secret_key_accepts env_prod "changeme").
    apply elem_of_cons. right. apply elem_of_cons. right.
    apply elem_of_cons. by left.
  - destruct (validate_secret_key_accepts env_unset
                "your-secret-key-here-change-in-production")
      as (Haccepts & Hsame & _).
    destruct Haccepts as [_ Haccepts].
    destruct Haccepts as [warned Hrun].
    + split; [simpl; lia | intros [_ Hprod]; discriminate Hprod].
    + rewrite Hrun. f_equal. f_equal.
      by apply (Hsame _ warned Hrun).
Defined.

(** In production, as [validate_secret_key] tests it, no key that the
    validator accepts makes [global_exception_handler] put the traceback
    into its response; outside production the only accepted key that does is
    the long insecure default. *)
Theorem traceback_needs_insecure_key (getenv : string → option string)
    (v v' : string) (warned : bool) :
  validate_secret_key getenv v = inr (v', warned) →
  (is_production getenv = true → includes_traceback v' = false)
  ∧ (includes_traceback v' = true ↔
     v' = "your-secret-key-here-change-in-production").
Proof.
  intros Hrun.
  destruct (validate_secret_key_characterized getenv v v' warned Hrun)
    as (-> & Hlen & Hprod).
  assert (Htrace : includes_traceback v = true ↔
                   v = "your-secret-key-here-change-in-production").
  { unfold includes_traceback. rewrite bool_decide_eq_true. split.
    - intros Hin. apply elem_of_cons in Hin as [->|Hin];
        [simpl in Hlen; lia |].
      apply elem_of_cons in Hin as [->|Hin]; [done |].
      by apply elem_of_nil in Hin.
    - intros ->. apply elem_of_cons. right. apply elem_of_cons. by left. }
  split; [| exact Htrace].
  intros Hproduction.
  destruct (includes_traceback v) eqn:Hincl; [| done].
  exfalso. apply Hprod. split; [by apply Htrace | done].
Qed.

Lemma traceback_needs_insecure_key_witness :
  includes_traceback "0123456789abcdef0123456789abcdef" = false.
Proof.
  apply (traceback_needs_insecure_key env_prod
           "0123456789abcdef0123456789abcdef"
           "0123456789abcdef0123456789abcdef" false);
    reflexivity.
Defined.

(** * The FPS leaderboard *)

Lemma matching_sees game_mode db row :
  row ∈ matching game_mode db
  ↔ row ∈ db ∧ sees game_mode (row_game_mode row) = true.
Proof.
  unfold matching, sees. destruct game_mode as [wanted|]; [| tauto].
  destruct (String.eqb wanted EmptyString); simpl; [tauto |].
  rewrite list_elem_of_In, filter_In, <- list_elem_of_In. tauto.
Qed.

Lemma matching_app game_mode db rows :
  matching game_mode (db ++ rows) = matching game_mode db ++ matching game_mode rows.
Proof.
  unfold matching. destruct game_mode as [wanted|]; [| done].
  destruct (String.eqb wanted EmptyString); [done | apply List.filter_app].
Qed.

Section LeaderboardFacts.

Variable order_by_score_desc : list FPSLeaderboard → list FPSLeaderboard.

(** What [ORDER BY score DESC] guarantees. *)
Hypothesis order_permutation :
  ∀ rows, Permutation (order_by_score_desc rows) rows.
Hypothesis order_sorted :
  ∀ rows, Sorted score_desc (order_by_score_desc rows).

Lemma order_strongly_sorted rows :
  StronglySorted score_desc (order_by_score_desc rows).
Proof.
  apply Sorted_StronglySorted; [| apply order_sorted].
  intros a b c. unfold score_desc. lia.
Qed.

(** A page of the leaderboard.  [total] is the number of rows of the wanted
    game mode (of all rows when no mode, or the empty one, is asked for) and
    does not depend on [offset] and [limit].  The page has
    [min limit (total - offset)] entries, all from the table and of the wanted
    mode, in descending order of score; it is the slice of the whole ranking
    after its first [offset] rows: the rows left out before it score at least
    as much as every entry, the rows left out after it at most as much. *)
Theorem leaderboard_page (db : list FPSLeaderboard) (offset limit : nat)
    (game_mode : option string) :
  let response := get_leaderboard order_by_score_desc db offset limit game_mode in
  total response
    = length (List.filter (λ row, sees game_mode (row_game_mode row)) db)
  ∧ (∀ offset' limit',
       total (get_leaderboard order_by_score_desc db offset' limit' game_mode)
       = total response)
  ∧ length (entries response) = Nat.min limit (total response - offset)
  ∧ (∀ row, row ∈ entries response →
            row ∈ db ∧ sees game_mode (row_game_mode row) = true)
  ∧ StronglySorted score_desc (entries response)
  ∧ (∃ before after,
       Permutation (before ++ entries response ++ after) (matching game_mode db)
       ∧ length before = Nat.min offset (total response)
       ∧ (∀ b e, b ∈ before → e ∈ entries response →
                 (row_score e ≤ row_score b)%Z)
       ∧ (∀ e a, e ∈ entries response → a ∈ after →
                 (row_score a ≤ row_score e)%Z))
  ∧ get_leaderboard order_by_score_desc db offset limit (Some EmptyString)
    = get_leaderboard order_by_score_desc db offset limit None.
Proof.
  intros response. unfold response, get_leaderboard; simpl.
  set (rows := matching game_mode db).
  set (ranking := order_by_score_desc rows).
  assert (Hlength : length ranking = length rows)
    by (apply Permutation_length, order_permutation).
  assert (Hsorted : StronglySorted score_desc ranking)
    by apply order_strongly_sorted.
  assert (Hsplit : ranking
                   = take offset ranking
                     ++ take limit (drop offset ranking)
                     ++ drop limit (drop offset ranking)).
  { by rewrite (take_drop limit), (take_drop offset). }
  split.
  { unfold rows, matching, sees. destruct game_mode as [wanted|]; simpl.
    - destruct (String.eqb wanted EmptyString); simpl; [| done].
      f_equal. clear. induction db as [|row db IH]; simpl; [done | by f_equal].
    - f_equal. clear. induction db as [|row db IH]; simpl; [done | by f_equal]. }
  split; [done |].
  split.
  { rewrite length_take, length_drop, Hlength. done. }
  split.
  { intros row Hin. apply matching_sees. fold rows.
    apply (elem_of_Permutation_proper _ _ _ (order_permutation rows)).
    fold ranking. rewrite Hsplit.
    apply elem_of_app. right. apply elem_of_app. by left. }
  split.
  { rewrite Hsplit in Hsorted.
    apply sorting.StronglySorted_app_1_r in Hsorted.
    by apply sorting.StronglySorted_app_1_l in Hsorted. }
  split; [| done].
  exists (take offset ranking), (drop limit (drop offset ranking)).
  split; [rewrite <- Hsplit; apply order_permutation |].
  split; [by rewrite length_take, Hlength |].
  split.
  - intros b e Hb He. rewrite Hsplit in Hsorted.
    apply (sorting.StronglySorted_app_1_elem_of score_desc _ _ b e Hsorted);
      [done |]. apply elem_of_app. by left.
  - intros e a He Ha. rewrite Hsplit in Hsorted.
    apply sorting.StronglySorted_app_1_r in Hsorted.
    by apply (sorting.StronglySorted_app_1_elem_of score_desc _ _ e a Hsorted).
Qed.

End LeaderboardFacts.

Lemma sort_by_score_desc_permutation rows :
  Permutation (sort_by_score_desc rows) rows.
Proof. apply sorting.merge_sort_Permutation. Qed.

Lemma sort_by_score_desc_sorted rows : Sorted score_desc (sort_by_score_desc rows).
Proof.
  apply sorting.Sorted_merge_sort.
  intros a b. unfold score_desc. lia.
Qed.

Lemma leaderboard_page_witness :
  let response :=
    get_leaderboard sort_by_score_desc sample_table 1 2 (Some "deathmatch") in
  total response = 3 ∧ length (entries response) = 2
  ∧ StronglySorted score_desc (entries response).
Proof.
  pose proof (leaderboard_page sort_by_score_desc sort_by_score_desc_permutation
                sort_by_score_desc_sorted sample_table 1 2 (Some "deathmatch"))
    as (Htotal & _ & Hlength & _ & Hsorted & _).
  split; [rewrite Htotal; reflexivity |].
  split; [rewrite Hlength, Htotal; reflexivity | exact Hsorted].
Defined.

(** [submit_score] stores nothing exactly when the database refuses the row
    it builds.  Otherwise it appends that one row and changes no other; the
    row carries the generated id, the user's id and name and the submitted
    numbers and mode.  Afterwards [total] is one more for every query that
    sees the row's game mode and the same for every other, and a first page
    with room left shows the new row. *)
Theorem submit_then_get
    (order_by_score_desc : list FPSLeaderboard → list FPSLeaderboard)
    (accepts_row : FPSLeaderboard → bool)
    (generate_uuid current_date now : string) (db : list FPSLeaderboard)
    (score_in : LeaderboardCreate) (current_user : User) :
  (∀ rows, Permutation (order_by_score_desc rows) rows) →
  let run := submit_score accepts_row generate_uuid current_date now db
               score_in current_user in
  let built :=
    {| row_id := generate_uuid;
       row_user_id := user_id current_user;
       row_username := user_username current_user;
       row_score := in_score score_in;
       row_kills := in_kills score_in;
       row_deaths := in_deaths score_in;
       row_game_mode := in_game_mode score_in;
       row_date := current_date;
       row_created_at := now |} in
  (run = None ↔ accepts_row built = false)
  ∧ (accepts_row built = true → run = Some (db ++ [built], built))
  ∧ (∀ after entry,
       run = Some (after, entry) →
       after = db ++ [entry]
       ∧ entry = built
       ∧ (∀ offset limit game_mode,
            total (get_leaderboard order_by_score_desc after offset limit
                                   game_mode)
            = total (get_leaderboard order_by_score_desc db offset limit
                                     game_mode)
              + (if sees game_mode (in_game_mode score_in) then 1 else 0))
       ∧ (∀ limit game_mode,
            sees game_mode (in_game_mode score_in) = true →
            length (matching game_mode db) < limit →
            entry ∈ entries (get_leaderboard order_by_score_desc after 0 limit
                                             game_mode))).
Proof.
  intros Hperm run built. unfold run, submit_score. fold built.
  destruct (accepts_row built).
  2:{ split; [done |]. split; [discriminate |].
      intros after entry Hrun. discriminate Hrun. }
  split; [split; discriminate |]. split; [done |].
  intros after entry Hrun. inversion Hrun; subst after entry; clear Hrun.
  do 2 (split; [reflexivity |]).
  assert (Hone : ∀ game_mode,
            matching game_mode [built]
            = if sees game_mode (in_game_mode score_in) then [built] else []).
  { intros [wanted|]; simpl; [| done].
    destruct (String.eqb wanted EmptyString); simpl; [done |].
    by destruct (String.eqb (in_game_mode score_in) wanted). }
  split.
  - intros offset limit game_mode. unfold get_leaderboard; simpl.
    rewrite matching_app, length_app, Hone.
    by destruct (sees game_mode (in_game_mode score_in)).
  - intros limit game_mode Hsees Hroom. unfold get_leaderboard; simpl.
    rewrite drop_0, take_ge.
    + apply (elem_of_Permutation_proper _ _ _ (Hperm _)).
      rewrite matching_app, Hone, Hsees.
      apply elem_of_app. right. apply elem_of_cons. by left.
    + rewrite (Permutation_length (Hperm _)).
      rewrite matching_app, length_app, Hone, Hsees. simpl. lia.
Qed.

Lemma submit_then_get_witness :
  submit_score int32_columns "e" "2025-01-02" "2025-01-02T10:00:00" sample_table
    {| in_score := 2 ^ 31; in_kills := 5; in_deaths := 1;
       in_game_mode := "deathmatch" |}
    {| user_id := "u2"; user_username := "bob" |} = None
  ∧ ∀ after entry,
      submit_score int32_columns "e" "2025-01-02" "2025-01-02T10:00:00"
        sample_table
        {| in_score := 50; in_kills := 5; in_deaths := 1;
           in_game_mode := "deathmatch" |}
        {| user_id := "u2"; user_username := "bob" |} = Some (after, entry) →
      row_score entry = 50%Z
      ∧ total (get_leaderboard sort_by_score_desc after 0 20 (Some "deathmatch"))
        = S (total (get_leaderboard sort_by_score_desc sample_table 0 20
                                    (Some "deathmatch"))).
Proof.
  split.
  - apply (submit_then_get sort_by_score_desc int32_columns "e" "2025-01-02"
             "2025-01-02T10:00:00" sample_table
             {| in_score := 2 ^ 31; in_kills := 5; in_deaths := 1;
                in_game_mode := "deathmatch" |}
             {| user_id := "u2"; user_username := "bob" |}
             sort_by_score_desc_permutation).
    reflexivity.
  - intros after entry Hrun.
    pose proof (submit_then_get sort_by_score_desc int32_columns "e" "2025-01-02"
                  "2025-01-02T10:00:00" sample_table
                  {| in_score := 50; in_kills := 5; in_deaths := 1;
                     in_game_mode := "deathmatch" |}
                  {| user_id := "u2"; user_username := "bob" |}
                  sort_by_score_desc_permutation) as (_ & _ & Hstored).
    destruct (Hstored after entry Hrun) as (_ & -> & Htotal & _).
    split; [reflexivity |].
    rewrite Htotal. simpl. lia.
Defined.

(** A [LeaderboardCreate] is built exactly from a score, kills and deaths
    that are all non-negative, the kills and deaths left out counting as 0;
    it then holds the values given, and otherwise at least one error is
    reported.  A row that [submit_score] stores for such a
    [LeaderboardCreate] has no negative number, so a table without negative
    numbers stays one. *)
Theorem validated_submissions_non_negative
    (accepts_row : FPSLeaderboard → bool)
    (generate_uuid current_date now : string) (db : list FPSLeaderboard)
    (score : Z) (kills deaths : option Z) (game_mode : string)
    (current_user : User) :
  let accepted :=
    {| in_score := score; in_kills := default 0%Z kills;
       in_deaths := default 0%Z deaths; in_game_mode := game_mode |} in
  (new_LeaderboardCreate score kills deaths game_mode = inr accepted
   ↔ (0 ≤ score ∧ 0 ≤ default 0 kills ∧ 0 ≤ default 0 deaths)%Z)
  ∧ (∀ score_in, new_LeaderboardCreate score kills deaths game_mode = inr score_in →
                 score_in = accepted)
  ∧ (∀ errors, new_LeaderboardCreate score kills deaths game_mode = inl errors →
               errors ≠ [])
  ∧ (∀ score_in after entry,
       new_LeaderboardCreate score kills deaths game_mode = inr score_in →
       submit_score accepts_row generate_uuid current_date now db score_in
                    current_user = Some (after, entry) →
       row_non_negative entry
       ∧ (Forall row_non_negative db → Forall row_non_negative after)).
Proof.
  intros accepted.
  assert (Hbuilt : ∀ score_in,
            new_LeaderboardCreate score kills deaths game_mode = inr score_in →
            score_in = accepted
            ∧ (0 ≤ score ∧ 0 ≤ default 0 kills ∧ 0 ≤ default 0 deaths)%Z).
  { intros score_in. unfold new_LeaderboardCreate, validate_score,
      validate_kills_deaths.
    destruct (Z.ltb_spec score 0); simpl; [discriminate |].
    destruct kills as [k|], deaths as [d|]; simpl;
      repeat match goal with
             | |- context [(?x <? 0)%Z] => destruct (Z.ltb_spec x 0); simpl
             end;
      try discriminate; intros Heq; inversion Heq;
      (split; [reflexivity | simpl; lia]). }
  assert (Hbuilds : (0 ≤ score ∧ 0 ≤ default 0 kills ∧ 0 ≤ default 0 deaths)%Z →
                    new_LeaderboardCreate score kills deaths game_mode
                    = inr accepted).
  { intros (Hscore & Hkills & Hdeaths).
    unfold new_LeaderboardCreate, validate_score, validate_kills_deaths.
    destruct (Z.ltb_spec score 0); [lia |]. simpl.
    destruct kills as [k|], deaths as [d|]; simpl in *;
      repeat match goal with
             | |- context [(?x <? 0)%Z] => destruct (Z.ltb_spec x 0); [lia |]
             end; reflexivity. }
  split; [split; [intros Heq; by apply (Hbuilt accepted) | exact Hbuilds] |].
  split; [intros score_in Heq; by apply Hbuilt |].
  split.
  { intros errors. unfold new_LeaderboardCreate.
    destruct (error_of _ ++ _ ++ _); [discriminate |].
    intros Heq. inversion Heq. discriminate. }
  intros score_in after entry Hvalid Hstored.
  destruct (Hbuilt score_in Hvalid) as (-> & Hscore & Hkills & Hdeaths).
  unfold submit_score in Hstored.
  destruct (accepts_row _); [| discriminate].
  inversion Hstored; subst after entry; clear Hstored.
  assert (Hrow : row_non_negative
                   {| row_id := generate_uuid;
                      row_user_id := user_id current_user;
                      row_username := user_username current_user;
                      row_score := in_score accepted;
                      row_kills := in_kills accepted;
                      row_deaths := in_deaths accepted;
                      row_game_mode := in_game_mode accepted;
                      row_date := current_date;
                      row_created_at := now |}).
  { unfold row_non_negative; simpl. lia. }
  split; [exact Hrow |].
  intros Hdb. apply Forall_app. split; [done |]. by apply Forall_singleton.
Qed.

Lemma validated_submissions_non_negative_witness :
  new_LeaderboardCreate 50 None (Some 1%Z) "deathmatch"
  = inr {| in_score := 50; in_kills := 0; in_deaths := 1;
           in_game_mode := "deathmatch" |}
  ∧ ∀ after entry,
      submit_score int32_columns "e" "2025-01-02" "2025-01-02T10:00:00"
        sample_table
        {| in_score := 50; in_kills := 0; in_deaths := 1;
           in_game_mode := "deathmatch" |}
        {| user_id := "u2"; user_username := "bob" |} = Some (after, entry) →
      Forall row_non_negative after.
Proof.
  pose proof (validated_submissions_non_negative int32_columns "e" "2025-01-02"
                "2025-01-02T10:00:00" sample_table 50 None (Some 1%Z)
                "deathmatch" {| user_id := "u2"; user_username := "bob" |})
    as (Hbuilt & _ & _ & Hstored).
  assert (Hvalid : new_LeaderboardCreate 50 None (Some 1%Z) "deathmatch"
                   = inr {| in_score := 50; in_kills := 0; in_deaths := 1;
                            in_game_mode := "deathmatch" |}).
  { apply Hbuilt. simpl. lia. }
  split; [exact Hvalid |].
  intros after entry Hrun.
  destruct (Hstored _ after entry Hvalid Hrun) as (_ & Hkeeps).
  apply Hkeeps. unfold sample_table.
  repeat (apply Forall_cons; split; [unfold row_non_negative; simpl; lia |]).
  apply Forall_nil_2.
Defined.
